(** * A circular desktop timer: the window shell and its timer content

    Shallow embedding of [circular_window.py] (class [CircularWindow]) and
    [timer_app.py] (class [TimerWindow], function [main]).

    Python integers are [Z].  Python floats (wall-clock readings, radii, the
    hold duration) are idealised as real numbers [R]: [math.exp] is [exp],
    [math.dist] is the square root of the sum of squares, [abs] is [Rabs].
    The float products that place the button rectangles are computed in
    binary64, as Python does, since truncation is sensitive to rounding.
    The operating system (clock, cursor, foreground window, window geometry)
    is an explicit [World] threaded through every method that talks to it. *)

From Stdlib Require Import Reals Lra Lia ZArith Bool List String Ascii Classical_Prop.
From Stdlib Require PrimFloat FloatOps SpecFloat.
Import ListNotations.

Local Open Scope Z_scope.

(** ** Input events (pygame) *)

Definition K_ESCAPE : Z := 27.
Definition K_RETURN : Z := 13.

Inductive Event : Type :=
| QUIT
| KEYDOWN (key : Z)
| KEYUP (key : Z)
| MOUSEBUTTONDOWN (button : Z) (pos : Z * Z)
| MOUSEBUTTONUP (button : Z) (pos : Z * Z)
| MOUSEMOTION (pos : Z * Z)
| OTHER (type : Z).

(** ** The operating system *)

Module Win32.

Definition SWP_NOSIZE : Z := 1.
Definition SWP_NOMOVE : Z := 2.
Definition SWP_NOZORDER : Z := 4.
Definition SWP_SHOWWINDOW : Z := 64.
Definition HWND_TOPMOST : Z := -1.

(** What the window manager knows about one top-level window. *)
Record OSWindow : Type := mkOSWindow {
  win_left : Z;
  win_top : Z;
  win_width : Z;
  win_height : Z;
  win_insert_after : Z;   (* z-order placement *)
  win_shown : bool
}.

(** Readings of the clock, the cursor and the foreground window are
    oracles: the n-th call of each returns the n-th value. *)
Record World : Type := mkWorld {
  clock : nat -> R;
  clock_reads : nat;
  cursor : nat -> Z * Z;
  cursor_reads : nat;
  foreground : nat -> Z;
  foreground_reads : nat;
  screen : Z * Z;
  windows : Z -> OSWindow
}.

Definition has_flag (flags flag : Z) : bool := negb (Z.land flags flag =? 0).

(** [SetWindowPos] as documented: a NOSIZE, NOMOVE or NOZORDER flag keeps
    the corresponding attribute and ignores the argument. *)
Definition place (o : OSWindow) (after x y cx cy flags : Z) : OSWindow :=
  let move := negb (has_flag flags SWP_NOMOVE) in
  let resize := negb (has_flag flags SWP_NOSIZE) in
  let reorder := negb (has_flag flags SWP_NOZORDER) in
  {| win_left := if move then x else win_left o;
     win_top := if move then y else win_top o;
     win_width := if resize then cx else win_width o;
     win_height := if resize then cy else win_height o;
     win_insert_after := if reorder then after else win_insert_after o;
     win_shown := has_flag flags SWP_SHOWWINDOW || win_shown o |}.

End Win32.
Import Win32.

(** A method that talks to the operating system. *)
Definition OS (A : Type) : Type := World -> A * World.

Definition ret {A} (a : A) : OS A := fun w => (a, w).
Definition bind {A B} (m : OS A) (k : A -> OS B) : OS B :=
  fun w => let (a, w') := m w in k a w'.

Notation "x <- m ;; k" := (bind m (fun x => k))
  (at level 61, m at next level, right associativity).
Notation "m ;;; k" := (bind m (fun _ => k))
  (at level 61, right associativity).

Definition time_time : OS R := fun w =>
  (clock w (clock_reads w),
   {| clock := clock w; clock_reads := S (clock_reads w);
      cursor := cursor w; cursor_reads := cursor_reads w;
      foreground := foreground w; foreground_reads := foreground_reads w;
      screen := screen w; windows := windows w |}).

Definition GetCursorPos : OS (Z * Z) := fun w =>
  (cursor w (cursor_reads w),
   {| clock := clock w; clock_reads := clock_reads w;
      cursor := cursor w; cursor_reads := S (cursor_reads w);
      foreground := foreground w; foreground_reads := foreground_reads w;
      screen := screen w; windows := windows w |}).

Definition GetForegroundWindow : OS Z := fun w =>
  (foreground w (foreground_reads w),
   {| clock := clock w; clock_reads := clock_reads w;
      cursor := cursor w; cursor_reads := cursor_reads w;
      foreground := foreground w; foreground_reads := S (foreground_reads w);
      screen := screen w; windows := windows w |}).

(** (left, top, right, bottom) *)
Definition GetWindowRect (hwnd : Z) : OS (Z * Z * Z * Z) := fun w =>
  let o := windows w hwnd in
  ((win_left o, win_top o, win_left o + win_width o, win_top o + win_height o), w).

Definition SetWindowPos (hwnd after x y cx cy flags : Z) : OS unit := fun w =>
  (tt,
   {| clock := clock w; clock_reads := clock_reads w;
      cursor := cursor w; cursor_reads := cursor_reads w;
      foreground := foreground w; foreground_reads := foreground_reads w;
      screen := screen w;
      windows := fun h => if h =? hwnd
                          then place (windows w h) after x y cx cy flags
                          else windows w h |}).

(** ** class CircularWindow *)

Record CircularWindow : Type := mkCircularWindow {
  size : Z;
  hwnd : Z;
  dragging : bool;
  drag_offset : option (Z * Z);
  escape_start : option R;
  escape_held : bool;
  escape_duration : R;
  has_focus : bool;
  max_radius : R;
  min_radius : R;
  current_radius : R;
  target_radius : R;
  size_transition_speed : R;
  expanded : bool
}.

Definition set_drag (d : bool) (o : option (Z * Z)) (self : CircularWindow) :=
  {| size := size self; hwnd := hwnd self;
     dragging := d; drag_offset := o;
     escape_start := escape_start self; escape_held := escape_held self;
     escape_duration := escape_duration self; has_focus := has_focus self;
     max_radius := max_radius self; min_radius := min_radius self;
     current_radius := current_radius self; target_radius := target_radius self;
     size_transition_speed := size_transition_speed self;
     expanded := expanded self |}.

Definition set_escape (held : bool) (start : option R) (self : CircularWindow) :=
  {| size := size self; hwnd := hwnd self;
     dragging := dragging self; drag_offset := drag_offset self;
     escape_start := start; escape_held := held;
     escape_duration := escape_duration self; has_focus := has_focus self;
     max_radius := max_radius self; min_radius := min_radius self;
     current_radius := current_radius self; target_radius := target_radius self;
     size_transition_speed := size_transition_speed self;
     expanded := expanded self |}.

Definition set_has_focus (f : bool) (self : CircularWindow) :=
  {| size := size self; hwnd := hwnd self;
     dragging := dragging self; drag_offset := drag_offset self;
     escape_start := escape_start self; escape_held := escape_held self;
     escape_duration := escape_duration self; has_focus := f;
     max_radius := max_radius self; min_radius := min_radius self;
     current_radius := current_radius self; target_radius := target_radius self;
     size_transition_speed := size_transition_speed self;
     expanded := expanded self |}.

Definition set_expanded (e : bool) (target : R) (self : CircularWindow) :=
  {| size := size self; hwnd := hwnd self;
     dragging := dragging self; drag_offset := drag_offset self;
     escape_start := escape_start self; escape_held := escape_held self;
     escape_duration := escape_duration self; has_focus := has_focus self;
     max_radius := max_radius self; min_radius := min_radius self;
     current_radius := current_radius self; target_radius := target;
     size_transition_speed := size_transition_speed self;
     expanded := e |}.

Definition set_current_radius (r : R) (self : CircularWindow) :=
  {| size := size self; hwnd := hwnd self;
     dragging := dragging self; drag_offset := drag_offset self;
     escape_start := escape_start self; escape_held := escape_held self;
     escape_duration := escape_duration self; has_focus := has_focus self;
     max_radius := max_radius self; min_radius := min_radius self;
     current_radius := r; target_radius := target_radius self;
     size_transition_speed := size_transition_speed self;
     expanded := expanded self |}.

(** [__init__], for a size [pygame.display.set_mode] accepts (it raises on
    a negative one, before anything below runs): the window handle is
    whatever window is in the foreground, the window is made topmost and
    centred, and the fields are set. *)
Definition CircularWindow_init (size : Z) : OS CircularWindow :=
  h <- GetForegroundWindow ;;
  sc <- (fun w => (screen w, w)) ;;
  SetWindowPos h HWND_TOPMOST ((fst sc - size) / 2) ((snd sc - size) / 2)
               size size SWP_SHOWWINDOW ;;;
  ret {| size := size; hwnd := h;
         dragging := false; drag_offset := None;
         escape_start := None; escape_held := false;
         escape_duration := 1.5%R; has_focus := true;
         max_radius := IZR (size / 2); min_radius := IZR (size / 5);
         current_radius := IZR (size / 2); target_radius := IZR (size / 2);
         size_transition_speed := 8%R;
         expanded := true |}.

(** [math.dist] on two integer points. *)
Definition dist (p q : Z * Z) : R :=
  sqrt (Rsqr (IZR (fst p) - IZR (fst q)) + Rsqr (IZR (snd p) - IZR (snd q))).

(** The progress fraction [draw_closing_animation] sweeps the arc with;
    [None] when the method returns without drawing. *)
Definition closing_progress (self : CircularWindow) (now : R) : option R :=
  if negb (escape_held self) then None
  else match escape_start self with
       | None => None
       | Some start => Some (Rmin 1 ((now - start) / escape_duration self))
       end.

Definition draw_closing_animation (self : CircularWindow) : OS (option R) :=
  if negb (escape_held self) then ret None
  else match escape_start self with
       | None => ret None
       | Some start =>
           now <- time_time ;;
           ret (Some (Rmin 1 ((now - start) / escape_duration self)))
       end.

(** The current cursor position, from the Win32 API. *)
Definition get_cursor_pos : OS (Z * Z) := GetCursorPos.

Definition update_window_pos (self : CircularWindow) : OS unit :=
  if negb (dragging self) then ret tt
  else match drag_offset self with
       | None => ret tt
       | Some off =>
           c <- get_cursor_pos ;;
           let new_x := fst c - fst off in
           let new_y := snd c - snd off in
           SetWindowPos (hwnd self) 0 new_x new_y 0 0
                        (Z.lor SWP_NOSIZE SWP_NOZORDER)
       end.

Definition lerp (start end_ t : R) : R := (start + (end_ - start) * t)%R.

Definition dt : R := (1 / 60)%R.

Definition update_size (self : CircularWindow) : CircularWindow :=
  if Rgt_dec (Rabs (current_radius self - target_radius self)) 0.1
  then set_current_radius
         (lerp (current_radius self) (target_radius self)
               (1 - exp (- size_transition_speed self * dt))) self
  else self.

Definition handle_window_click (self : CircularWindow) (pos : Z * Z)
  : bool * CircularWindow :=
  if negb (expanded self) then
    let center := (size self / 2, size self / 2) in
    if Rle_dec (dist pos center) (current_radius self) then
      if Rle_dec (dist pos center) (current_radius self / 3) then
        (true, set_expanded true (max_radius self) self)
      else (false, self)
    else (false, self)
  else (false, self).

(** The body of the [for event in events] loop of [process_parent_events].
    [Some b] is [return b]; [None] goes on with the next event. *)
Definition process_event (self : CircularWindow) (event : Event)
  : OS (option bool * CircularWindow) :=
  match event with
  | QUIT => ret (Some false, self)
  | KEYDOWN key =>
      if key =? K_ESCAPE then
        if negb (escape_held self) then
          t <- time_time ;;
          ret (None, set_escape true (Some t) self)
        else ret (None, self)
      else ret (None, self)
  | KEYUP key =>
      if key =? K_ESCAPE then ret (None, set_escape false None self)
      else ret (None, self)
  | MOUSEBUTTONDOWN button pos =>
      if button =? 1 then
        let (handled, self) := handle_window_click self pos in
        if handled then ret (None, self)
        else
          let center := (size self / 2, size self / 2) in
          if Rle_dec (dist pos center) (current_radius self) then
            win_rect <- GetWindowRect (hwnd self) ;;
            c <- get_cursor_pos ;;
            let '(x0, y0, _, _) := win_rect in
            ret (None, set_drag true (Some (fst c - x0, snd c - y0)) self)
          else ret (None, self)
      else ret (None, self)
  | MOUSEBUTTONUP button _ =>
      if button =? 1 then ret (None, set_drag false None self)
      else ret (None, self)
  | MOUSEMOTION _ =>
      if dragging self then update_window_pos self ;;; ret (None, self)
      else ret (None, self)
  | OTHER _ => ret (None, self)
  end.

Fixpoint event_loop (self : CircularWindow) (events : list Event)
  : OS (option bool * CircularWindow) :=
  match events with
  | [] => ret (None, self)
  | event :: rest =>
      r <- process_event self event ;;
      match r with
      | (Some b, self) => ret (Some b, self)
      | (None, self) => event_loop self rest
      end
  end.

(** The focus check at the head of [process_parent_events]. *)
Definition update_focus (self : CircularWindow) : OS CircularWindow :=
  fg <- GetForegroundWindow ;;
  let self := set_has_focus (hwnd self =? fg) self in
  if negb (has_focus self) && expanded self
  then ret (set_expanded false (min_radius self) self)
  else ret self.

(** Returns [false] if the window should close. *)
Definition process_parent_events (self : CircularWindow) (events : list Event)
  : OS (bool * CircularWindow) :=
  self <- update_focus self ;;
  r <- event_loop self events ;;
  match r with
  | (Some b, self) => ret (b, self)
  | (None, self) =>
      if escape_held self then
        match escape_start self with
        | Some start =>
            now <- time_time ;;
            if Rge_dec (now - start) (escape_duration self)
            then ret (false, self)
            else ret (true, self)
        | None => ret (true, self)
        end
      else ret (true, self)
  end.

(** [CircularWindow.handle_events] *)
Definition CircularWindow_handle_events (self : CircularWindow)
  (pending : list Event) : OS (bool * CircularWindow) :=
  process_parent_events self pending.

(** ** class TimerWindow(CircularWindow) *)

(** [pygame.Rect] and its [collidepoint]. *)
Record Rect : Type := mkRect { rx : Z; ry : Z; rw : Z; rh : Z }.

Definition collidepoint (r : Rect) (pos : Z * Z) : bool :=
  (rx r <=? fst pos) && (fst pos <? rx r + rw r) &&
  (ry r <=? snd pos) && (snd pos <? ry r + rh r).

Record TimerWindow : Type := mkTimerWindow {
  base : CircularWindow;
  bg_color : Z * Z * Z * Z;
  seconds : Z;
  running : bool;
  last_update : R;
  finished : bool;
  buttons : list (string * Rect);   (* in insertion order *)
  click_handled : bool
}.

Definition set_base (b : CircularWindow) (self : TimerWindow) :=
  {| base := b; bg_color := bg_color self; seconds := seconds self;
     running := running self; last_update := last_update self;
     finished := finished self; buttons := buttons self;
     click_handled := click_handled self |}.

Definition set_timer (s : Z) (run : bool) (upd : R) (fin : bool)
  (self : TimerWindow) :=
  {| base := base self; bg_color := bg_color self; seconds := s;
     running := run; last_update := upd;
     finished := fin; buttons := buttons self;
     click_handled := click_handled self |}.

Definition set_click_handled (c : bool) (self : TimerWindow) :=
  {| base := base self; bg_color := bg_color self; seconds := seconds self;
     running := running self; last_update := last_update self;
     finished := finished self; buttons := buttons self;
     click_handled := c |}.

(** Binary64 arithmetic for [size * 0.7] and the like: the integer is
    converted to the nearest float, a decimal literal is the float nearest
    to it, and [pygame.Rect] truncates a float coordinate toward zero. *)
Definition float_of_int (n : Z) : PrimFloat.float :=
  FloatOps.SF2Prim (SpecFloat.binary_normalize FloatOps.prec FloatOps.emax n 0 false).

Definition float_literal (num den : Z) : PrimFloat.float :=
  PrimFloat.div (float_of_int num) (float_of_int den).

Definition float_trunc (f : PrimFloat.float) : Z :=
  match FloatOps.Prim2SF f with
  | SpecFloat.S754_finite s m e =>
      let v := if 0 <=? e then Z.pos m * 2 ^ e else Z.pos m / 2 ^ (- e) in
      if s then - v else v
  | _ => 0
  end.

Definition mul_int_float (n : Z) (f : PrimFloat.float) : PrimFloat.float :=
  PrimFloat.mul (float_of_int n) f.

(** The button rectangles of [__init__]: [size*0.7], [size*0.82],
    [size*0.75] and [size*0.2] are float products that [pygame.Rect]
    truncates. *)
Definition original_buttons (size : Z) : list (string * Rect) :=
  let center_x := size / 2 in
  let btn_width := size / 4 in
  let btn_height := size / 12 in
  [ ("start"%string,
     mkRect (center_x - btn_width / 2)
            (float_trunc (mul_int_float size (float_literal 7 10)))
            btn_width btn_height);
    ("reset"%string,
     mkRect (center_x - btn_width / 2)
            (float_trunc (mul_int_float size (float_literal 82 100)))
            btn_width btn_height);
    ("up"%string,
     mkRect (float_trunc (mul_int_float size (float_literal 75 100)))
            (size / 2 - btn_height / 2) btn_height btn_height);
    ("down"%string,
     mkRect (float_trunc (mul_int_float size (float_literal 2 10)))
            (size / 2 - btn_height / 2) btn_height btn_height) ].

Definition TimerWindow_init (size initial_minutes : Z) (autostart : bool)
  (bg : Z * Z * Z) : OS TimerWindow :=
  b <- CircularWindow_init size ;;
  now <- time_time ;;
  ret {| base := b;
         bg_color := (fst (fst bg), snd (fst bg), snd bg, 255);
         seconds := Z.max 60 (Z.min 5400 (initial_minutes * 60));
         running := autostart;
         last_update := now;
         finished := false;
         buttons := original_buttons size;
         click_handled := false |}.

(** What a click on the button called [name] does. *)
Definition press_button (self : TimerWindow) (name : string) : OS TimerWindow :=
  if String.eqb name "start" then
    now <- time_time ;;
    ret (set_timer (seconds self) (negb (running self)) now false self)
  else if String.eqb name "reset" then
    ret (set_timer 300 false (last_update self) false self)
  else if String.eqb name "up" && negb (running self) then
    ret (set_timer (Z.min 5400 (seconds self + 60)) (running self)
                   (last_update self) (finished self) self)
  else if String.eqb name "down" && negb (running self) then
    ret (set_timer (Z.max 60 (seconds self - 60)) (running self)
                   (last_update self) (finished self) self)
  else ret self.

Fixpoint click_first (self : TimerWindow) (items : list (string * Rect))
  (pos : Z * Z) : OS (bool * TimerWindow) :=
  match items with
  | [] => ret (false, self)
  | (btn_name, btn_rect) :: rest =>
      if collidepoint btn_rect pos then
        self <- press_button self btn_name ;;
        ret (true, self)
      else click_first self rest pos
  end.

(** Returns [true] if the click was handled. *)
Definition handle_button_click (self : TimerWindow) (pos : Z * Z)
  : OS (bool * TimerWindow) :=
  if negb (expanded (base self)) then ret (false, self)
  else click_first self (buttons self) pos.

(** The body of the first loop of [TimerWindow.handle_events]. *)
Definition timer_event (self : TimerWindow) (event : Event) : OS TimerWindow :=
  match event with
  | MOUSEBUTTONDOWN button pos =>
      if button =? 1 then
        r <- handle_button_click self pos ;;
        let (handled, self) := r in
        if handled then ret (set_click_handled true self) else ret self
      else if ((button =? 4) || (button =? 5)) && negb (running self)
              && expanded (base self) then
        let direction := if button =? 4 then 1 else -1 in
        ret (set_timer (Z.max 60 (Z.min 5400 (seconds self + 60 * direction)))
                       (running self) (last_update self) (finished self) self)
      else ret self
  | KEYDOWN key =>
      if (key =? K_RETURN) && negb (running self) then
        ret (set_timer 300 (running self) (last_update self) false self)
      else ret self
  | _ => ret self
  end.

Fixpoint timer_events (self : TimerWindow) (events : list Event) : OS TimerWindow :=
  match events with
  | [] => ret self
  | event :: rest => self <- timer_event self event ;; timer_events self rest
  end.

(** [TimerWindow.handle_events], on the events [pygame.event.get()] returned. *)
Definition handle_events (self : TimerWindow) (events : list Event)
  : OS (bool * TimerWindow) :=
  let self := set_click_handled false self in
  self <- timer_events self events ;;
  if negb (click_handled self) then
    r <- process_parent_events (base self) events ;;
    ret (fst r, set_base (snd r) self)
  else ret (true, self).

(** [int(x)] on a float: truncation toward zero. *)
Definition int_of_float (x : R) : Z :=
  if Rle_dec 0 x then Int_part x else - Int_part (- x).

(** [update_timer].  The boolean tells whether [flash_taskbar] was called. *)
Definition update_timer (self : TimerWindow) : OS (bool * TimerWindow) :=
  if running self then
    current_time <- time_time ;;
    let elapsed := (current_time - last_update self)%R in
    if Rge_dec elapsed 1 then
      let s := Z.max 0 (seconds self - int_of_float elapsed) in
      if s =? 0 then ret (true, set_timer s false current_time true self)
      else ret (false, set_timer s (running self) current_time (finished self) self)
    else ret (false, self)
  else ret (false, self).

(** Decimal digits of a non-negative integer. *)
Definition digit_char (d : Z) : ascii := ascii_of_nat (48 + Z.to_nat d).

Fixpoint decimal_from (fuel : nat) (n : Z) (acc : string) : string :=
  match fuel with
  | O => acc
  | S f =>
      let acc := String (digit_char (n mod 10)) acc in
      if n / 10 =? 0 then acc else decimal_from f (n / 10) acc
  end.

Definition decimal (n : Z) : string :=
  decimal_from (S (Z.to_nat (Z.log2 n))) n EmptyString.

Fixpoint zfill (width : nat) (s : string) : string :=
  if (String.length s <? width)%nat
  then match width with
       | O => s
       | S k => String "0" (zfill k s)
       end
  else s.

(** The format specification [02d]: at least two characters, zero filled
    after the sign. *)
Definition format_02d (n : Z) : string :=
  if n <? 0 then String "-" (zfill 1 (decimal (- n))) else zfill 2 (decimal n).

Definition format_time (self : TimerWindow) : string :=
  let minutes := seconds self / 60 in
  let secs := seconds self mod 60 in
  (format_02d minutes ++ ":" ++ format_02d secs)%string.

(** ** main: the command line *)

(** [str.split(sep)] for a one-character separator. *)
Fixpoint split (sep : ascii) (s : string) : list string :=
  match s with
  | EmptyString => [EmptyString]
  | String c rest =>
      if Ascii.eqb c sep then EmptyString :: split sep rest
      else match split sep rest with
           | field :: fields => String c field :: fields
           | [] => [String c EmptyString]
           end
  end.

(** [map(int, fields)] forced by [tuple]: [None] is a [ValueError]. *)
Fixpoint map_int (int : string -> option Z) (fields : list string)
  : option (list Z) :=
  match fields with
  | [] => Some []
  | f :: rest =>
      match int f with
      | None => None
      | Some n =>
          match map_int int rest with
          | None => None
          | Some ns => Some (n :: ns)
          end
      end
  end.

Definition in_byte (x : Z) : bool := (0 <=? x) && (x <=? 255).

Definition default_color : Z * Z * Z := (0, 120, 255).

(** The try/except around the colour argument.  [int] is Python's builtin
    on text; a [ValueError] from it or from the explicit [raise] selects the
    default colour. *)
Definition parse_bg_color (int : string -> option Z) (color : string)
  : Z * Z * Z :=
  match map_int int (split ","%char color) with
  | None => default_color
  | Some bg =>
      if negb (List.length bg =? 3)%nat || negb (forallb in_byte bg)
      then default_color
      else match bg with
           | [r; g; b] => (r, g, b)
           | _ => default_color
           end
  end.

(** [main] up to the frame loop, with the options argparse produced. *)
Definition main_setup (int : string -> option Z) (minutes : Z) (start : bool)
  (color : string) : OS TimerWindow :=
  TimerWindow_init 400 minutes start (parse_bg_color int color).

(** Python's [int] on ASCII text: surrounding whitespace is dropped, a sign
    may lead, and the digits may be grouped by single underscores.  Python
    also accepts the decimal digits and spaces of other scripts, which a
    [string] of bytes does not hold; the examples use this function, the
    theorems about the colour argument hold for every [int]. *)
Module PyInt.

Definition is_space (c : ascii) : bool :=
  let n := nat_of_ascii c in
  ((9 <=? n) && (n <=? 13) || (28 <=? n) && (n <=? 32))%nat.

Definition digit_of (c : ascii) : option Z :=
  let n := nat_of_ascii c in
  if ((48 <=? n) && (n <=? 57))%nat then Some (Z.of_nat n - 48) else None.

Fixpoint lstrip (l : list ascii) : list ascii :=
  match l with
  | c :: rest => if is_space c then lstrip rest else l
  | [] => []
  end.

Definition strip (l : list ascii) : list ascii :=
  rev (lstrip (rev (lstrip l))).

Fixpoint digits (acc : Z) (after_digit : bool) (l : list ascii) : option Z :=
  match l with
  | [] => if after_digit then Some acc else None
  | c :: rest =>
      if Ascii.eqb c "_" then
        if after_digit then digits acc false rest else None
      else match digit_of c with
           | Some d => digits (acc * 10 + d) true rest
           | None => None
           end
  end.

Definition int (s : string) : option Z :=
  match strip (list_ascii_of_string s) with
  | c :: rest =>
      if Ascii.eqb c "+" then digits 0 false rest
      else if Ascii.eqb c "-" then option_map Z.opp (digits 0 false rest)
      else digits 0 false (c :: rest)
  | [] => None
  end.

End PyInt.

(** ** The frame loop

    [while running: running = handle_events()] for a plain circular window.
    Between two polls the caller may read the clock any number of times
    (drawing the closing arc does). *)

Fixpoint read_clock (n : nat) : OS unit :=
  match n with
  | O => ret tt
  | S k => time_time ;;; read_clock k
  end.

Fixpoint frame_loop (self : CircularWindow) (frames : list (nat * list Event))
  : OS (bool * CircularWindow) :=
  match frames with
  | [] => ret (true, self)
  | (idle, events) :: rest =>
      read_clock idle ;;;
      r <- CircularWindow_handle_events self events ;;
      if fst r then frame_loop (snd r) rest else ret r
  end.

(** ** Sample worlds and windows used by the examples *)

Definition sample_world : World :=
  {| clock := fun n => INR n; clock_reads := 0;
     cursor := fun n => (700 + Z.of_nat n, 500); cursor_reads := 0;
     foreground := fun _ => 7; foreground_reads := 0;
     screen := (1920, 1080);
     windows := fun _ => mkOSWindow 760 340 400 400 HWND_TOPMOST true |}.

Definition sample_window : CircularWindow :=
  fst (CircularWindow_init 400 sample_world).

Definition sample_timer : TimerWindow :=
  fst (main_setup PyInt.int 5 false "0,120,255" sample_world).

(** * Vocabulary of the statements *)

Fixpoint has_char (c : ascii) (s : string) : bool :=
  match s with
  | EmptyString => false
  | String x rest => Ascii.eqb x c || has_char c rest
  end.

(** The colour text as the specification words it: three comma-separated
    integers, each in [0, 255]. *)
Definition rgb_text (int : string -> option Z) (s : string) (r g b : Z) : Prop :=
  exists fr fg fb : string,
    s = (fr ++ "," ++ fg ++ "," ++ fb)%string /\
    has_char "," fr = false /\ has_char "," fg = false /\ has_char "," fb = false /\
    int fr = Some r /\ int fg = Some g /\ int fb = Some b /\
    0 <= r <= 255 /\ 0 <= g <= 255 /\ 0 <= b <= 255.

Definition is_quit (ev : Event) : bool :=
  match ev with QUIT => true | _ => false end.

(** The events the loop reaches: those before the first quit request. *)
Fixpoint before_quit (evs : list Event) : list Event :=
  match evs with
  | [] => []
  | ev :: rest => if is_quit ev then [] else ev :: before_quit rest
  end.

Definition update_size_n (n : nat) (self : CircularWindow) : CircularWindow :=
  Nat.iter n update_size self.

Local Open Scope R_scope.

(** The close-gesture logic on its own: what a key event does to the hold
    flag, the recorded start and the number of clock readings taken. *)
Definition close_gesture_step (clk : nat -> R) (g : bool * option R * nat)
  (ev : Event) : bool * option R * nat :=
  let '(held, start, n) := g in
  match ev with
  | KEYDOWN key =>
      if (key =? K_ESCAPE)%Z then
        if held then g else (true, Some (clk n), S n)
      else g
  | KEYUP key => if (key =? K_ESCAPE)%Z then (false, None, n) else g
  | _ => g
  end.

Definition close_gesture_after (clk : nat -> R) (g : bool * option R * nat)
  (evs : list Event) : bool * option R * nat :=
  fold_left (close_gesture_step clk) evs g.

Definition gesture_of (self : CircularWindow) (w : World) : bool * option R * nat :=
  (escape_held self, escape_start self, clock_reads w).

(** A primary press in the inner third of the current radius. *)
Definition activation_click (self : CircularWindow) (ev : Event) : Prop :=
  exists pos, ev = MOUSEBUTTONDOWN 1 pos /\
              dist pos (size self / 2, size self / 2)%Z <= current_radius self / 3.

(** Fields no event handler assigns. *)
Definition same_shape (a b : CircularWindow) : Prop :=
  size a = size b /\ hwnd a = hwnd b /\
  escape_duration a = escape_duration b /\
  current_radius a = current_radius b /\
  min_radius a = min_radius b /\ max_radius a = max_radius b.

(** The hold check that ends [process_parent_events]. *)
Definition hold_check (self : CircularWindow) : OS (bool * CircularWindow) :=
  if escape_held self then
    match escape_start self with
    | Some start =>
        now <- time_time ;;
        if Rge_dec (now - start) (escape_duration self)
        then ret (false, self)
        else ret (true, self)
    | None => ret (true, self)
    end
  else ret (true, self).

(** The hold, if any, started at a clock reading numbered [k] or later. *)
Definition started_after (k : nat) (clk : nat -> R) (g : bool * option R * nat) : Prop :=
  let '(held, start, n) := g in
  (k <= n)%nat /\
  (held = true -> exists i, (k <= i < n)%nat /\ start = Some (clk i)).

(** A collapsed window of radius 80 in a 400 pixel square. *)
Definition collapsed_window : CircularWindow :=
  set_expanded false 80 (set_current_radius 80 sample_window).

(** A world whose clock reads [t] now and a second more at each reading. *)
Definition world_at (t : R) : World :=
  {| clock := fun n => t + INR n; clock_reads := 0;
     cursor := cursor sample_world; cursor_reads := 0;
     foreground := foreground sample_world; foreground_reads := 0;
     screen := screen sample_world; windows := windows sample_world |}.

(** A world in which another window (handle 9) is in the foreground. *)
Definition world_unfocused : World :=
  {| clock := clock sample_world; clock_reads := 0;
     cursor := cursor sample_world; cursor_reads := 0;
     foreground := fun _ => 9%Z; foreground_reads := 0;
     screen := screen sample_world; windows := windows sample_world |}.

(** State invariants of the shell. *)
Definition drag_ok (self : CircularWindow) : Prop :=
  dragging self = true -> drag_offset self <> None.

Definition gesture_ok (self : CircularWindow) : Prop :=
  escape_held self = true <-> escape_start self <> None.

Definition target_ok (self : CircularWindow) : Prop :=
  target_radius self = if expanded self then max_radius self else min_radius self.

Definition radius_ok (self : CircularWindow) : Prop :=
  min_radius self <= current_radius self <= max_radius self.

(** What the frame loop does to the shell between construction and exit:
    [draw] updates the size and then draws the closing arc, [handle_events]
    polls a batch, and other code may read the clock ([update_timer]
    does). *)
Inductive ShellOp : Type :=
| Draw
| Poll (events : list Event)
| Clock.

Fixpoint shell_run (self : CircularWindow) (ops : list ShellOp) : OS CircularWindow :=
  match ops with
  | [] => ret self
  | Draw :: rest =>
      let self := update_size self in
      draw_closing_animation self ;;;
      shell_run self rest
  | Poll events :: rest =>
      r <- process_parent_events self events ;;
      shell_run (snd r) rest
  | Clock :: rest => time_time ;;; shell_run self rest
  end.

(** Size, z-order placement and visibility of a window. *)
Definition same_geometry (a b : OSWindow) : Prop :=
  win_width a = win_width b /\ win_height a = win_height b /\
  win_insert_after a = win_insert_after b /\ win_shown a = win_shown b.

Definition is_motion (ev : Event) : bool :=
  match ev with MOUSEMOTION _ => true | _ => false end.

Definition is_primary_press (ev : Event) : bool :=
  match ev with MOUSEBUTTONDOWN button _ => (button =? 1)%Z | _ => false end.

(** The five characters MM:SS for a number of seconds. *)
Definition clock_text (s : Z) : string :=
  String (digit_char (s / 600))
    (String (digit_char ((s / 60) mod 10))
       (String ":"
          (String (digit_char ((s mod 60) / 10))
             (String (digit_char (s mod 10)) EmptyString))))%Z.

(** Everything the shell keeps true of its own state. *)
Definition shell_ok (self : CircularWindow) : Prop :=
  radius_ok self /\ target_ok self /\ drag_ok self /\ gesture_ok self /\
  0 < size_transition_speed self.

(** What one event or one button may do to the countdown: nothing; toggle
    running (start); reset to five minutes; or, only while not running, add
    or remove a minute within the limits. *)
Definition timer_move (a b : TimerWindow) : Prop :=
  (seconds b = seconds a /\ running b = running a /\ finished b = finished a) \/
  (seconds b = seconds a /\ running b = negb (running a) /\ finished b = false) \/
  (seconds b = 300 /\ running b = false /\ finished b = false)%Z \/
  (running a = false /\ running b = false /\ finished b = finished a /\
   (seconds b = Z.min 5400 (seconds a + 60) \/
    seconds b = Z.max 60 (seconds a - 60) \/
    seconds b = Z.max 60 (Z.min 5400 (seconds a + 60)) \/
    seconds b = Z.max 60 (Z.min 5400 (seconds a - 60))))%Z.

(** The seconds a five-character MM:SS text stands for. *)
Definition text_seconds (t : string) : option Z :=
  match t with
  | String m1 (String m2 (String sep (String s1 (String s2 EmptyString)))) =>
      if Ascii.eqb sep ":" then
        match PyInt.digit_of m1, PyInt.digit_of m2, PyInt.digit_of s1, PyInt.digit_of s2 with
        | Some a, Some b, Some c, Some d => Some ((a * 10 + b) * 60 + (c * 10 + d))%Z
        | _, _, _, _ => None
        end
      else None
  | _ => None
  end.

(** * Properties *)

(** ** Helpers *)

Lemma dist_nonneg (p q : Z * Z) : 0 <= dist p q.
Proof. unfold dist. apply sqrt_pos. Qed.

Ltac rdec :=
  repeat match goal with
    | |- context [Rle_dec ?a ?b] => destruct (Rle_dec a b); try lra
    | |- context [Rge_dec ?a ?b] => destruct (Rge_dec a b); try lra
    | |- context [Rgt_dec ?a ?b] => destruct (Rgt_dec a b); try lra
    end.

Lemma handle_window_click_collapsed_inner (self : CircularWindow) (pos : Z * Z) :
  expanded self = false ->
  dist pos (size self / 2, size self / 2)%Z <= current_radius self / 3 ->
  handle_window_click self pos = (true, set_expanded true (max_radius self) self).
Proof.
  intros He Hd. unfold handle_window_click. rewrite He. cbn [negb].
  pose proof (dist_nonneg pos (size self / 2, size self / 2)%Z).
  rdec. reflexivity.
Qed.

Lemma handle_window_click_outer (self : CircularWindow) (pos : Z * Z) :
  current_radius self / 3 < dist pos (size self / 2, size self / 2)%Z ->
  handle_window_click self pos = (false, self).
Proof.
  intros Hd. unfold handle_window_click.
  destruct (negb (expanded self)); [|reflexivity].
  rdec; reflexivity.
Qed.

(** A primary press inside the circle that the activation check declines
    captures the cursor offset and starts a drag. *)
Lemma press_starts_drag (self : CircularWindow) (pos : Z * Z) (w : World) :
  handle_window_click self pos = (false, self) ->
  dist pos (size self / 2, size self / 2)%Z <= current_radius self ->
  process_event self (MOUSEBUTTONDOWN 1 pos) w =
    ((None,
      set_drag true
        (Some (fst (cursor w (cursor_reads w)) - win_left (windows w (hwnd self)),
               snd (cursor w (cursor_reads w)) - win_top (windows w (hwnd self))))%Z
        self),
     snd (get_cursor_pos w)).
Proof.
  intros Hc Hd. unfold process_event. cbn [Z.eqb Pos.eqb]. rewrite Hc.
  rdec. reflexivity.
Qed.

Lemma dist_same_row (x1 x2 y : Z) : dist (x1, y) (x2, y) = Rabs (IZR x1 - IZR x2).
Proof.
  unfold dist. cbn [fst snd].
  replace (IZR y - IZR y) with 0 by ring.
  rewrite Rsqr_0, Rplus_0_r. apply sqrt_Rsqr_abs.
Qed.

(** ** C5: activation zone and drag zone of a collapsed window *)

(** C5. While collapsed, a primary press at distance at most a third of the
    current radius from the centre expands the window, retargets the radius
    to the maximum and is consumed (no drag starts, nothing is read from the
    system); a primary press farther than a third but within the current
    radius is declined by the activation check, captures the cursor offset
    and starts a drag, leaving the window collapsed. *)
Theorem collapsed_press_activates_or_drags
  (self : CircularWindow) (pos : Z * Z) (w : World) :
  expanded self = false ->
  let d := dist pos (size self / 2, size self / 2)%Z in
  let r := process_event self (MOUSEBUTTONDOWN 1 pos) w in
  (d <= current_radius self / 3 ->
     fst (handle_window_click self pos) = true /\
     fst (fst r) = None /\
     expanded (snd (fst r)) = true /\
     target_radius (snd (fst r)) = max_radius self /\
     dragging (snd (fst r)) = dragging self /\
     drag_offset (snd (fst r)) = drag_offset self /\
     snd r = w) /\
  (current_radius self / 3 < d <= current_radius self ->
     fst (handle_window_click self pos) = false /\
     fst (fst r) = None /\
     dragging (snd (fst r)) = true /\
     drag_offset (snd (fst r)) =
       Some (fst (cursor w (cursor_reads w)) - win_left (windows w (hwnd self)),
             snd (cursor w (cursor_reads w)) - win_top (windows w (hwnd self)))%Z /\
     expanded (snd (fst r)) = false /\
     target_radius (snd (fst r)) = target_radius self).
Proof.
  intros He d r. split.
  - intros Hd.
    pose proof (handle_window_click_collapsed_inner self pos He Hd) as Hc.
    subst r. unfold process_event. cbn [Z.eqb Pos.eqb]. rewrite Hc.
    cbn. repeat split; reflexivity.
  - intros [Hlo Hhi].
    pose proof (handle_window_click_outer self pos Hlo) as Hc.
    subst r. rewrite (press_starts_drag self pos w Hc Hhi), Hc.
    cbn. repeat split; auto.
Qed.

Lemma collapsed_press_activates_or_drags_witness :
  expanded collapsed_window = false /\
  expanded (snd (fst (process_event collapsed_window
                        (MOUSEBUTTONDOWN 1 (200, 200)%Z) sample_world))) = true /\
  dragging (snd (fst (process_event collapsed_window
                        (MOUSEBUTTONDOWN 1 (250, 200)%Z) sample_world))) = true.
Proof.
  pose proof (collapsed_press_activates_or_drags collapsed_window (200, 200)%Z
                sample_world eq_refl) as [H1 _].
  pose proof (collapsed_press_activates_or_drags collapsed_window (250, 200)%Z
                sample_world eq_refl) as [_ H2].
  assert (Hs : (size collapsed_window / 2)%Z = 200%Z) by reflexivity.
  assert (Hr : current_radius collapsed_window = 80) by reflexivity.
  split; [reflexivity|]. split.
  - apply H1. rewrite Hs, Hr, dist_same_row.
    replace (200 - 200) with 0 by ring. rewrite Rabs_R0. lra.
  - apply H2. rewrite Hs, Hr, dist_same_row.
    replace (250 - 200) with 50 by ring. rewrite Rabs_pos_eq by lra. lra.
Defined.

(** ** C8: dragging *)

Lemma place_nosize_nozorder (o : OSWindow) (after x y cx cy : Z) :
  place o after x y cx cy (Z.lor SWP_NOSIZE SWP_NOZORDER) =
  {| win_left := x; win_top := y;
     win_width := win_width o; win_height := win_height o;
     win_insert_after := win_insert_after o; win_shown := win_shown o |}.
Proof. reflexivity. Qed.

(** C8. While a drag is active with offset [o], a pointer move with the
    cursor at (x, y) puts the window's top-left corner at exactly
    (x - o.x, y - o.y); its size and z-order placement, and every other
    window, stay as they were.  The offset a press captures is the cursor
    position minus the window's top-left corner at the press. *)
Theorem drag_move_repositions_exactly
  (self : CircularWindow) (o : Z * Z) (pos : Z * Z) (w : World) :
  dragging self = true ->
  drag_offset self = Some o ->
  let r := process_event self (MOUSEMOTION pos) w in
  let before := windows w (hwnd self) in
  let after := windows (snd r) (hwnd self) in
  fst r = (None, self) /\
  win_left after = (fst (cursor w (cursor_reads w)) - fst o)%Z /\
  win_top after = (snd (cursor w (cursor_reads w)) - snd o)%Z /\
  win_width after = win_width before /\
  win_height after = win_height before /\
  win_insert_after after = win_insert_after before /\
  (forall h, h <> hwnd self -> windows (snd r) h = windows w h) /\
  (forall (self0 : CircularWindow) (pos0 : Z * Z) (w0 : World),
      handle_window_click self0 pos0 = (false, self0) ->
      dist pos0 (size self0 / 2, size self0 / 2)%Z <= current_radius self0 ->
      drag_offset (snd (fst (process_event self0 (MOUSEBUTTONDOWN 1 pos0) w0))) =
        Some (fst (cursor w0 (cursor_reads w0)) - win_left (windows w0 (hwnd self0)),
              snd (cursor w0 (cursor_reads w0)) - win_top (windows w0 (hwnd self0)))%Z).
Proof.
  intros Hd Ho r before after. subst r before after.
  assert (E : process_event self (MOUSEMOTION pos) w =
              ((None, self),
               snd (SetWindowPos (hwnd self) 0
                      (fst (cursor w (cursor_reads w)) - fst o)
                      (snd (cursor w (cursor_reads w)) - snd o) 0 0
                      (Z.lor SWP_NOSIZE SWP_NOZORDER) (snd (get_cursor_pos w))))).
  { unfold process_event, update_window_pos. rewrite Hd, Ho. reflexivity. }
  rewrite E. unfold SetWindowPos, get_cursor_pos, GetCursorPos.
  cbn [fst snd windows].
  rewrite Z.eqb_refl, place_nosize_nozorder.
  cbn [win_left win_top win_width win_height win_insert_after].
  repeat split; try reflexivity.
  - intros h Hh. apply Z.eqb_neq in Hh. rewrite Hh. reflexivity.
  - intros self0 pos0 w0 Hc Hin.
    rewrite (press_starts_drag self0 pos0 w0 Hc Hin). reflexivity.
Qed.

Lemma drag_move_repositions_exactly_witness :
  let self := set_drag true (Some (30, 40)%Z) sample_window in
  let w' := snd (process_event self (MOUSEMOTION (5, 5)%Z) sample_world) in
  win_left (windows w' (hwnd self)) = 670%Z /\
  win_top (windows w' (hwnd self)) = 460%Z /\
  win_width (windows w' (hwnd self)) = 400%Z.
Proof.
  intros self w'.
  destruct (drag_move_repositions_exactly self (30, 40)%Z (5, 5)%Z sample_world
              eq_refl eq_refl) as (_ & Hl & Ht & Hw & _).
  split; [exact Hl | split; [exact Ht | exact Hw]].
Defined.

(** ** C10: key repeat during a hold *)

(** C10. A key-down of the close key that arrives while the gesture is
    already holding changes nothing: neither the window state (so neither
    the hold flag nor the recorded start) nor the system (the clock is not
    read), for one such event and for any run of them; the progress the arc
    is drawn with is therefore the same function of the time as before. *)
Theorem repeated_keydown_keeps_hold_start
  (self : CircularWindow) (w : World) (n : nat) :
  escape_held self = true ->
  process_event self (KEYDOWN K_ESCAPE) w = ((None, self), w) /\
  event_loop self (repeat (KEYDOWN K_ESCAPE) n) w = ((None, self), w) /\
  (forall now,
      closing_progress
        (snd (fst (event_loop self (repeat (KEYDOWN K_ESCAPE) n) w))) now =
      closing_progress self now).
Proof.
  intros Hh.
  assert (H1 : process_event self (KEYDOWN K_ESCAPE) w = ((None, self), w)).
  { unfold process_event. rewrite Z.eqb_refl, Hh. reflexivity. }
  assert (Hn : event_loop self (repeat (KEYDOWN K_ESCAPE) n) w = ((None, self), w)).
  { induction n as [|n IH]; [reflexivity|].
    cbn [repeat event_loop]. unfold bind at 1. rewrite H1. exact IH. }
  split; [exact H1|]. split; [exact Hn|].
  intros now. rewrite Hn. reflexivity.
Qed.

Lemma repeated_keydown_keeps_hold_start_witness :
  let self := set_escape true (Some 3) sample_window in
  event_loop self (repeat (KEYDOWN K_ESCAPE) 4) sample_world
    = ((None, self), sample_world).
Proof.
  intros self.
  exact (proj1 (proj2 (repeated_keydown_keeps_hold_start self sample_world 4 eq_refl))).
Defined.

(** ** C3: radius interpolation *)

Lemma smoothing_factor_unit (speed : R) :
  0 < speed -> 0 < 1 - exp (- speed * dt) < 1.
Proof.
  intros Hs.
  assert (Hneg : - speed * dt < 0) by (unfold dt; lra).
  pose proof (exp_pos (- speed * dt)) as Hp.
  pose proof (exp_increasing _ _ Hneg) as Hi. rewrite exp_0 in Hi. lra.
Qed.

Lemma lerp_between_up (c t a : R) :
  0 < a < 1 -> c <= t -> c <= lerp c t a <= t.
Proof. intros Ha Hct. unfold lerp. nra. Qed.

Lemma lerp_between_down (c t a : R) :
  0 < a < 1 -> t <= c -> t <= lerp c t a <= c.
Proof. intros Ha Hct. unfold lerp. nra. Qed.

Lemma update_size_fields (self : CircularWindow) :
  target_radius (update_size self) = target_radius self /\
  min_radius (update_size self) = min_radius self /\
  max_radius (update_size self) = max_radius self /\
  size_transition_speed (update_size self) = size_transition_speed self.
Proof.
  unfold update_size.
  destruct (Rgt_dec _ _); repeat split; reflexivity.
Qed.

(** One call moves the current radius no farther than the target. *)
Lemma update_size_step (self : CircularWindow) :
  0 < size_transition_speed self ->
  (current_radius self <= target_radius self ->
     current_radius self <= current_radius (update_size self) <= target_radius self) /\
  (target_radius self <= current_radius self ->
     target_radius self <= current_radius (update_size self) <= current_radius self).
Proof.
  intros Hs. pose proof (smoothing_factor_unit _ Hs) as Ha.
  unfold update_size.
  destruct (Rgt_dec _ _); cbn [current_radius set_current_radius]; split; intros H.
  - apply lerp_between_up; assumption.
  - apply lerp_between_down; assumption.
  - lra.
  - lra.
Qed.

Lemma update_size_n_fields (n : nat) (self : CircularWindow) :
  target_radius (update_size_n n self) = target_radius self /\
  min_radius (update_size_n n self) = min_radius self /\
  max_radius (update_size_n n self) = max_radius self /\
  size_transition_speed (update_size_n n self) = size_transition_speed self.
Proof.
  induction n as [|n IH]; [repeat split; reflexivity|].
  change (update_size_n (S n) self) with (update_size (update_size_n n self)).
  destruct (update_size_fields (update_size_n n self)) as (a & b & c & d).
  destruct IH as (a' & b' & c' & d').
  repeat split; congruence.
Qed.

(** The current radius stays on its side of the target. *)
Lemma update_size_n_side (n : nat) (self : CircularWindow) :
  0 < size_transition_speed self ->
  (current_radius self <= target_radius self ->
     current_radius self <= current_radius (update_size_n n self) <= target_radius self) /\
  (target_radius self <= current_radius self ->
     target_radius self <= current_radius (update_size_n n self) <= current_radius self).
Proof.
  intros Hs. induction n as [|n IH].
  - change (update_size_n 0 self) with self. split; intros; lra.
  - destruct (update_size_n_fields n self) as (Ht & _ & _ & Hv).
    assert (Hs' : 0 < size_transition_speed (update_size_n n self)) by (rewrite Hv; exact Hs).
    destruct (update_size_step _ Hs') as [Hup Hdown].
    rewrite Ht in Hup, Hdown.
    change (update_size_n (S n) self) with (update_size (update_size_n n self)).
    destruct IH as [IHup IHdown]. split; intros H.
    + specialize (IHup H). specialize (Hup (proj2 IHup)). lra.
    + specialize (IHdown H). specialize (Hdown (proj1 IHdown)). lra.
Qed.

Lemma update_size_settled (self : CircularWindow) :
  Rabs (current_radius self - target_radius self) <= 0.1 -> update_size self = self.
Proof.
  intros H. unfold update_size. destruct (Rgt_dec _ _); [lra|reflexivity].
Qed.

Lemma update_size_gap (self : CircularWindow) :
  Rabs (current_radius self - target_radius self) > 0.1 ->
  current_radius (update_size self) - target_radius self =
  (current_radius self - target_radius self) * exp (- size_transition_speed self * dt).
Proof.
  intros H. unfold update_size. destruct (Rgt_dec _ _); [|lra].
  cbn [current_radius set_current_radius]. unfold lerp. ring.
Qed.

(** C3. From a radius state with min <= current <= max, a target that is
    the minimum or the maximum and a positive transition speed (the
    constructor's is 8), repeated calls of [update_size] keep the target,
    keep min <= current <= max after every call, and each call moves the
    current radius toward the target without passing it: when the target is
    below, the sequence is non-increasing and bounded below by the target;
    when it is above, non-decreasing and bounded above by the target.  The
    progress is real: while the gap to the target exceeds 0.1 a call
    multiplies it by exp(-speed/60), so the radius moves strictly closer;
    once the gap is within 0.1 a call changes nothing. *)
Theorem update_size_monotone_no_overshoot (self : CircularWindow) (n : nat) :
  min_radius self <= current_radius self <= max_radius self ->
  target_radius self = min_radius self \/ target_radius self = max_radius self ->
  0 < size_transition_speed self ->
  let before := update_size_n n self in
  let after := update_size before in
  target_radius after = target_radius self /\
  min_radius self <= current_radius after <= max_radius self /\
  (target_radius self <= current_radius self ->
     target_radius self <= current_radius after <= current_radius before) /\
  (current_radius self <= target_radius self ->
     current_radius before <= current_radius after <= target_radius self) /\
  (Rabs (current_radius before - target_radius self) > 0.1 ->
     current_radius after - target_radius self =
       (current_radius before - target_radius self) *
       exp (- size_transition_speed self * dt) /\
     Rabs (current_radius after - target_radius self) <
       Rabs (current_radius before - target_radius self) /\
     current_radius after <> current_radius before) /\
  (Rabs (current_radius before - target_radius self) <= 0.1 -> after = before).
Proof.
  intros Hb Ht Hs before after.
  destruct (update_size_n_fields (S n) self) as (HtS & _ & _ & _).
  destruct (update_size_n_fields n self) as (Htn & _ & _ & Hvn).
  destruct (update_size_n_side (S n) self Hs) as [HupS HdownS].
  destruct (update_size_n_side n self Hs) as [Hupn Hdownn].
  assert (Hs' : 0 < size_transition_speed before) by (subst before; rewrite Hvn; exact Hs).
  destruct (update_size_step _ Hs') as [Hup Hdown].
  assert (Hgap : Rabs (current_radius before - target_radius self) > 0.1 ->
                 current_radius after - target_radius self =
                 (current_radius before - target_radius self) *
                 exp (- size_transition_speed self * dt)).
  { intros Hbig. subst after.
    assert (Hbig' : Rabs (current_radius before - target_radius before) > 0.1)
      by (subst before; rewrite Htn; exact Hbig).
    pose proof (update_size_gap before Hbig') as Hg.
    subst before. rewrite Htn, Hvn in Hg. exact Hg. }
  assert (Hstill : Rabs (current_radius before - target_radius self) <= 0.1 ->
                   after = before).
  { intros Hsmall. subst after. apply update_size_settled.
    subst before. rewrite Htn. exact Hsmall. }
  subst before after.
  change (update_size (update_size_n n self)) with (update_size_n (S n) self) in *.
  rewrite Htn in Hup, Hdown.
  split; [exact HtS|]. split; [|split; [|split; [|split]]].
  - destruct Ht as [Ht | Ht].
    + assert (H : target_radius self <= current_radius self) by lra.
      specialize (HdownS H). lra.
    + assert (H : current_radius self <= target_radius self) by lra.
      specialize (HupS H). lra.
  - intros H. specialize (Hdownn H). specialize (Hdown (proj1 Hdownn)). lra.
  - intros H. specialize (Hupn H). specialize (Hup (proj2 Hupn)). lra.
  - intros Hbig. specialize (Hgap Hbig).
    pose proof (smoothing_factor_unit _ Hs) as Hq.
    set (q := exp (- size_transition_speed self * dt)) in *.
    set (g := current_radius (update_size_n n self) - target_radius self) in *.
    assert (Hg0 : 0 < Rabs g) by lra.
    assert (Hlt : Rabs (current_radius (update_size_n (S n) self) - target_radius self)
                  < Rabs g).
    { rewrite Hgap, Rabs_mult, (Rabs_pos_eq q) by lra. nra. }
    split; [exact Hgap|]. split; [exact Hlt|].
    intros Heq. rewrite Heq in Hlt. fold g in Hlt. lra.
  - exact Hstill.
Qed.

(** A window collapsing from the full radius 200 toward the target 80. *)
Lemma update_size_monotone_no_overshoot_witness :
  let self := set_expanded false 80 sample_window in
  let after := update_size self in
  target_radius after = 80 /\ 80 <= current_radius after < 200 /\
  current_radius after - 80 = (200 - 80) * exp (- 8 * dt).
Proof.
  intros self after.
  assert (Hb : min_radius self <= current_radius self <= max_radius self).
  { cbn. lra. }
  assert (Hs : 0 < size_transition_speed self) by (cbn; lra).
  assert (Hbig : Rabs (current_radius (update_size_n 0 self) - target_radius self) > 0.1).
  { change (update_size_n 0 self) with self. cbn [self current_radius target_radius
      set_expanded sample_window CircularWindow_init fst].
    cbn. rewrite Rabs_pos_eq; lra. }
  destruct (update_size_monotone_no_overshoot self 0 Hb (or_introl eq_refl) Hs)
    as (Ht & Hr & Hdown & _ & Hstrict & _).
  destruct (Hstrict Hbig) as (Hg & Hlt & _).
  change (update_size_n 0 self) with self in *. fold after in Ht, Hr, Hdown, Hg, Hlt.
  assert (Hcur : current_radius self = 200) by reflexivity.
  assert (Htg : target_radius self = 80) by reflexivity.
  assert (Hsp : size_transition_speed self = 8) by reflexivity.
  rewrite Hcur, Htg, ?Hsp in *.
  assert (Hd : 80 <= current_radius after <= 200) by (apply Hdown; lra).
  split; [exact Ht|]. split; [|exact Hg].
  split; [lra|].
  rewrite (Rabs_pos_eq (200 - 80)) in Hlt by lra.
  rewrite Rabs_pos_eq in Hlt by lra. lra.
Defined.

(** ** What one pass over the events does to each group of fields *)

Lemma same_shape_refl (a : CircularWindow) : same_shape a a.
Proof. repeat split. Qed.

Lemma same_shape_trans (a b c : CircularWindow) :
  same_shape a b -> same_shape b c -> same_shape a c.
Proof.
  unfold same_shape. intros (?&?&?&?&?&?) (?&?&?&?&?&?).
  repeat split; congruence.
Qed.

Ltac run_os :=
  unfold bind, ret, time_time, get_cursor_pos, GetCursorPos, GetWindowRect,
         SetWindowPos, GetForegroundWindow.

Ltac split_ifs :=
  repeat match goal with
    | |- context [if ?c then _ else _] => destruct c eqn:?
    | |- context [match ?x with Some _ => _ | None => _ end] => destruct x eqn:?
    end.

Lemma process_event_shape (self : CircularWindow) (ev : Event) (w : World) :
  let r := process_event self ev w in
  same_shape (snd (fst r)) self /\ clock (snd r) = clock w /\
  foreground (snd r) = foreground w /\
  foreground_reads (snd r) = foreground_reads w.
Proof.
  destruct ev; unfold process_event, handle_window_click, update_window_pos;
    run_os; split_ifs; cbn; repeat split; reflexivity.
Qed.

Lemma process_event_gesture (self : CircularWindow) (ev : Event) (w : World) :
  let r := process_event self ev w in
  gesture_of (snd (fst r)) (snd r) =
  close_gesture_step (clock w) (gesture_of self w) ev.
Proof.
  unfold gesture_of.
  destruct ev; unfold process_event, handle_window_click, update_window_pos,
                 close_gesture_step;
    run_os; split_ifs; cbn in *; try reflexivity; try congruence.
Qed.

Lemma process_event_flow (self : CircularWindow) (ev : Event) (w : World) :
  fst (fst (process_event self ev w)) = if is_quit ev then Some false else None.
Proof.
  destruct ev; cbn [is_quit];
    unfold process_event, handle_window_click, update_window_pos;
    run_os; split_ifs; reflexivity.
Qed.

Lemma process_event_expansion (self : CircularWindow) (ev : Event) (w : World) :
  let self' := snd (fst (process_event self ev w)) in
  (expanded self' = expanded self /\ target_radius self' = target_radius self) \/
  (expanded self = false /\ activation_click self ev /\
   expanded self' = true /\ target_radius self' = max_radius self).
Proof.
  destruct ev; try (left; unfold process_event, update_window_pos; run_os;
                    split_ifs; split; reflexivity).
  unfold process_event.
  destruct (button =? 1)%Z eqn:Hb; [|left; split; reflexivity].
  apply Z.eqb_eq in Hb. subst button.
  unfold handle_window_click.
  destruct (expanded self) eqn:He; cbn [negb].
  - left. run_os. split_ifs; cbn; split; auto.
  - destruct (Rle_dec _ _) as [Hin|Hout].
    + destruct (Rle_dec _ _) as [Hact|Hno].
      * right. cbn. repeat split; try reflexivity. exists pos. split; [reflexivity|exact Hact].
      * left. run_os. split_ifs; cbn; split; auto.
    + left. run_os. split_ifs; cbn; split; auto.
Qed.

Lemma is_quit_true (ev : Event) : is_quit ev = true -> ev = QUIT.
Proof. destruct ev; cbn; congruence. Qed.

Lemma event_loop_cons (self : CircularWindow) (ev : Event) (rest : list Event)
  (w : World) :
  event_loop self (ev :: rest) w =
  let r := process_event self ev w in
  if is_quit ev then ((Some false, snd (fst r)), snd r)
  else event_loop (snd (fst r)) rest (snd r).
Proof.
  cbn [event_loop]. unfold bind at 1.
  pose proof (process_event_flow self ev w) as Hf.
  destruct (process_event self ev w) as [[flow s] w']. cbn [fst snd] in *.
  subst flow. destruct (is_quit ev); reflexivity.
Qed.

Lemma event_loop_shape (evs : list Event) (self : CircularWindow) (w : World) :
  let r := event_loop self evs w in
  same_shape (snd (fst r)) self /\ clock (snd r) = clock w /\
  foreground (snd r) = foreground w /\
  foreground_reads (snd r) = foreground_reads w.
Proof.
  revert self w. induction evs as [|ev rest IH]; intros self w.
  - cbn. repeat split.
  - rewrite event_loop_cons.
    destruct (process_event_shape self ev w) as (Hs & Hc & Hf & Hn).
    cbv zeta. destruct (is_quit ev); cbn [fst snd].
    + auto.
    + destruct (IH (snd (fst (process_event self ev w)))
                   (snd (process_event self ev w))) as (Hs' & Hc' & Hf' & Hn').
      split; [eapply same_shape_trans; eassumption|].
      repeat split; congruence.
Qed.

Lemma event_loop_flow (evs : list Event) (self : CircularWindow) (w : World) :
  fst (fst (event_loop self evs w)) =
  if existsb is_quit evs then Some false else None.
Proof.
  revert self w. induction evs as [|ev rest IH]; intros self w; [reflexivity|].
  rewrite event_loop_cons. cbn [existsb]. cbv zeta.
  destruct (is_quit ev); cbn [orb fst]; [reflexivity|apply IH].
Qed.

(** The gesture fields after the loop are the close-gesture logic folded
    over the events that precede the first quit request. *)
Lemma event_loop_gesture (evs : list Event) (self : CircularWindow) (w : World) :
  let r := event_loop self evs w in
  gesture_of (snd (fst r)) (snd r) =
  close_gesture_after (clock w) (gesture_of self w) (before_quit evs).
Proof.
  revert self w. induction evs as [|ev rest IH]; intros self w; [reflexivity|].
  rewrite event_loop_cons. cbn [before_quit]. cbv zeta.
  pose proof (process_event_gesture self ev w) as Hg. cbv zeta in Hg.
  destruct (is_quit ev) eqn:Hq; cbn [fst snd].
  - apply is_quit_true in Hq. subst ev. rewrite Hg. reflexivity.
  - unfold close_gesture_after. cbn [fold_left]. rewrite <- Hg.
    destruct (process_event_shape self ev w) as (_ & Hc & _).
    rewrite <- Hc. apply IH.
Qed.

Lemma activation_click_shape (a b : CircularWindow) (ev : Event) :
  same_shape a b -> activation_click a ev -> activation_click b ev.
Proof.
  intros (Hs & _ & _ & Hr & _) (pos & He & Hd).
  exists pos. split; [exact He|]. rewrite <- Hs, <- Hr. exact Hd.
Qed.

(** Without an activation click, the loop leaves the expansion state alone. *)
Lemma event_loop_expansion (evs : list Event) (self : CircularWindow) (w : World) :
  (forall ev, In ev evs -> ~ activation_click self ev) ->
  let self' := snd (fst (event_loop self evs w)) in
  expanded self' = expanded self /\ target_radius self' = target_radius self.
Proof.
  revert self w. induction evs as [|ev rest IH]; intros self w Hno.
  - cbn. split; reflexivity.
  - rewrite event_loop_cons. cbv zeta.
    assert (Hstep : expanded (snd (fst (process_event self ev w))) = expanded self /\
                    target_radius (snd (fst (process_event self ev w))) = target_radius self).
    { destruct (process_event_expansion self ev w) as [H | (_ & Hact & _)]; [exact H|].
      exfalso. apply (Hno ev); [left; reflexivity | exact Hact]. }
    destruct (is_quit ev); cbn [fst snd]; [exact Hstep|].
    destruct (process_event_shape self ev w) as (Hs & _).
    destruct (IH (snd (fst (process_event self ev w))) (snd (process_event self ev w)))
      as [He Ht].
    { intros ev' Hin Hact. apply (Hno ev'); [right; exact Hin|].
      eapply activation_click_shape; eassumption. }
    destruct Hstep as [He0 Ht0]. split; congruence.
Qed.

Lemma process_parent_events_eq (self : CircularWindow) (evs : list Event) (w : World) :
  process_parent_events self evs w =
  let f := update_focus self w in
  let r := event_loop (fst f) evs (snd f) in
  if existsb is_quit evs then ((false, snd (fst r)), snd r)
  else hold_check (snd (fst r)) (snd r).
Proof.
  unfold process_parent_events. unfold bind at 1.
  destruct (update_focus self w) as [s1 w1]. cbn [fst snd]. unfold bind at 1.
  pose proof (event_loop_flow evs s1 w1) as Hf.
  destruct (event_loop s1 evs w1) as [[flow s2] w2]. cbn [fst snd] in *.
  subst flow. destruct (existsb is_quit evs); reflexivity.
Qed.

Lemma hold_check_state (self : CircularWindow) (w : World) :
  snd (fst (hold_check self w)) = self /\ clock (snd (hold_check self w)) = clock w.
Proof.
  unfold hold_check. run_os. split_ifs; cbn; split; reflexivity.
Qed.

Lemma update_focus_spec (self : CircularWindow) (w : World) :
  let f := update_focus self w in
  same_shape (fst f) self /\
  gesture_of (fst f) (snd f) = gesture_of self w /\
  clock (snd f) = clock w /\
  has_focus (fst f) = (hwnd self =? foreground w (foreground_reads w))%Z /\
  (if negb (hwnd self =? foreground w (foreground_reads w))%Z && expanded self
   then expanded (fst f) = false /\ target_radius (fst f) = min_radius self
   else expanded (fst f) = expanded self /\
        target_radius (fst f) = target_radius self).
Proof.
  unfold update_focus. run_os. cbn [has_focus set_has_focus expanded].
  destruct (negb _ && expanded self); cbn; repeat split; reflexivity.
Qed.

Lemma before_quit_incl (evs : list Event) (ev : Event) :
  In ev (before_quit evs) -> In ev evs.
Proof.
  induction evs as [|e rest IH]; cbn; [tauto|].
  destruct (is_quit e); cbn; [tauto|]. intros [H|H]; [left; exact H|right; auto].
Qed.

Lemma before_quit_no_quit (evs : list Event) :
  existsb is_quit evs = false -> before_quit evs = evs.
Proof.
  induction evs as [|e rest IH]; cbn; [reflexivity|].
  destruct (is_quit e); cbn; [discriminate|]. intros H. rewrite IH; auto.
Qed.

(** Without a key-up of the close key a hold stays as it is. *)
Lemma hold_unbroken (clk : nat -> R) (evs : list Event) (start : option R) (n : nat) :
  (forall ev, In ev evs -> ev <> KEYUP K_ESCAPE) ->
  close_gesture_after clk (true, start, n) evs = (true, start, n).
Proof.
  unfold close_gesture_after. induction evs as [|ev rest IH]; intros Hno; [reflexivity|].
  cbn [fold_left].
  assert (Hstep : close_gesture_step clk (true, start, n) ev = (true, start, n)).
  { destruct ev; cbn; try reflexivity.
    - destruct (key =? K_ESCAPE)%Z; reflexivity.
    - destruct (key =? K_ESCAPE)%Z eqn:Hk; [|reflexivity].
      apply Z.eqb_eq in Hk. subst key. exfalso.
      apply (Hno (KEYUP K_ESCAPE)); [left|]; reflexivity. }
  rewrite Hstep. apply IH. intros ev' Hin. apply Hno. right. exact Hin.
Qed.

(** The state and clock the hold check runs on, for a frame that starts in
    a hold and sees no key-up of the close key. *)
Lemma frame_keeps_hold (self : CircularWindow) (evs : list Event) (w : World)
  (start : option R) :
  escape_held self = true -> escape_start self = start ->
  (forall ev, In ev evs -> ev <> KEYUP K_ESCAPE) ->
  let f := update_focus self w in
  let r := event_loop (fst f) evs (snd f) in
  escape_held (snd (fst r)) = true /\ escape_start (snd (fst r)) = start /\
  escape_duration (snd (fst r)) = escape_duration self /\
  clock (snd r) = clock w /\ clock_reads (snd r) = clock_reads w.
Proof.
  intros Hh Hs Hno f r.
  destruct (update_focus_spec self w) as (Hsh & Hg & Hc & _). fold f in Hsh, Hg, Hc.
  pose proof (event_loop_gesture evs (fst f) (snd f)) as Hl. fold r in Hl.
  destruct (event_loop_shape evs (fst f) (snd f)) as (Hsh' & Hc' & _). fold r in Hsh', Hc'.
  rewrite Hg in Hl. unfold gesture_of in Hl at 2. rewrite Hh, Hs in Hl.
  rewrite hold_unbroken in Hl
    by (intros ev Hin; apply Hno; apply before_quit_incl; exact Hin).
  unfold gesture_of in Hl. inversion Hl as [[H1 H2 H3]].
  destruct Hsh as (_ & _ & Hd & _). destruct Hsh' as (_ & _ & Hd' & _).
  repeat split; congruence.
Qed.

(** ** C4: holding the close key for the threshold duration *)

(** C4. In a frame that starts in a hold begun at [t0] and sees no key-up
    of the close key: when the clock reads exactly [t0 + escape_duration]
    the frame's dispatch returns stop and the progress fraction the closing
    arc is drawn with is 1; at every clock reading before that instant the
    fraction is strictly below 1 and the dispatch does not stop unless the
    batch carries a quit request. *)
Theorem hold_for_threshold_closes
  (self : CircularWindow) (evs : list Event) (w : World) (t0 : R) :
  escape_held self = true ->
  escape_start self = Some t0 ->
  0 < escape_duration self ->
  (forall ev, In ev evs -> ev <> KEYUP K_ESCAPE) ->
  let now := clock w (clock_reads w) in
  (now = t0 + escape_duration self ->
     fst (fst (process_parent_events self evs w)) = false /\
     fst (draw_closing_animation self w) = Some 1) /\
  (now < t0 + escape_duration self ->
     (existsb is_quit evs = false ->
        fst (fst (process_parent_events self evs w)) = true) /\
     exists p, fst (draw_closing_animation self w) = Some p /\ p < 1).
Proof.
  intros Hh Hs Hd Hno now.
  destruct (frame_keeps_hold self evs w (Some t0) Hh Hs Hno)
    as (Hh' & Hs' & Hd' & Hc & Hn).
  rewrite process_parent_events_eq. cbv zeta.
  set (r := event_loop (fst (update_focus self w)) evs (snd (update_focus self w))) in *.
  assert (Hdraw : fst (draw_closing_animation self w) =
                  Some (Rmin 1 ((now - t0) / escape_duration self))).
  { unfold draw_closing_animation. rewrite Hh, Hs. reflexivity. }
  assert (Hcheck : fst (fst (hold_check (snd (fst r)) (snd r))) =
                   if Rge_dec (now - t0) (escape_duration self) then false else true).
  { unfold hold_check. rewrite Hh', Hs'. run_os. cbn [fst snd].
    rewrite Hc, Hn, Hd'. fold now. destruct (Rge_dec _ _); reflexivity. }
  split.
  - intros Hnow. split.
    + destruct (existsb is_quit evs); [reflexivity|].
      rewrite Hcheck. destruct (Rge_dec _ _); [reflexivity|lra].
    + rewrite Hdraw. f_equal.
      replace ((now - t0) / escape_duration self) with 1 by (rewrite Hnow; field; lra).
      apply Rmin_left. lra.
  - intros Hnow. split.
    + intros Hq. rewrite Hq, Hcheck. destruct (Rge_dec _ _); [lra|reflexivity].
    + exists ((now - t0) / escape_duration self).
      assert (Hlt : (now - t0) / escape_duration self < 1).
      { apply Rmult_lt_reg_r with (escape_duration self); [exact Hd|].
        unfold Rdiv. rewrite Rmult_assoc, Rinv_l by lra. lra. }
      split; [|exact Hlt]. rewrite Hdraw. f_equal. apply Rmin_right. lra.
Qed.

Lemma hold_for_threshold_closes_witness :
  let self := set_escape true (Some 0.5) sample_window in
  let evs := [KEYDOWN K_ESCAPE; MOUSEMOTION (1, 1)%Z] in
  fst (fst (process_parent_events self evs (world_at 2))) = false /\
  fst (draw_closing_animation self (world_at 2)) = Some 1.
Proof.
  intros self evs.
  assert (Hd : 0 < escape_duration self) by (cbn; lra).
  assert (Hno : forall ev, In ev evs -> ev <> KEYUP K_ESCAPE).
  { intros ev [H | [H | []]]; subst ev; discriminate. }
  apply (hold_for_threshold_closes self evs (world_at 2) 0.5 eq_refl eq_refl Hd Hno).
  cbn. lra.
Defined.

(** ** C7: releasing the close key *)

Lemma close_gesture_step_started (k : nat) (clk : nat -> R)
  (g : bool * option R * nat) (ev : Event) :
  started_after k clk g -> started_after k clk (close_gesture_step clk g ev).
Proof.
  destruct g as [[held start] n]. intros [Hk Hs].
  destruct ev; cbn; try (split; assumption).
  - destruct (key =? K_ESCAPE)%Z; [|split; assumption].
    destruct held; [split; assumption|].
    split; [lia|]. intros _. exists n. split; [lia|reflexivity].
  - destruct (key =? K_ESCAPE)%Z; [|split; assumption].
    split; [exact Hk|discriminate].
Qed.

Lemma close_gesture_after_started (k : nat) (clk : nat -> R) (evs : list Event)
  (g : bool * option R * nat) :
  started_after k clk g -> started_after k clk (close_gesture_after clk g evs).
Proof.
  unfold close_gesture_after. revert g.
  induction evs as [|ev rest IH]; intros g Hg; [exact Hg|].
  cbn [fold_left]. apply IH. apply close_gesture_step_started. exact Hg.
Qed.

Lemma read_clock_spec (n : nat) (w : World) :
  clock (snd (read_clock n w)) = clock w /\
  (clock_reads w <= clock_reads (snd (read_clock n w)))%nat.
Proof.
  revert w. induction n as [|n IH]; intros w; [cbn; split; [reflexivity|lia]|].
  change (read_clock (S n) w) with (read_clock n (snd (time_time w))).
  destruct (IH (snd (time_time w))) as [Hc Hn].
  unfold time_time in Hc at 2. unfold time_time in Hn at 1.
  cbn [snd clock clock_reads] in Hc, Hn. split; [exact Hc|lia].
Qed.

(** One poll keeps the hold's start on or after reading [k]; if it stops
    without a quit request, a full duration has elapsed between two readings
    numbered [k] or later. *)
Lemma frame_started_after (k : nat) (self : CircularWindow) (evs : list Event)
  (w : World) :
  started_after k (clock w) (gesture_of self w) ->
  let r := process_parent_events self evs w in
  started_after k (clock w) (gesture_of (snd (fst r)) (snd r)) /\
  clock (snd r) = clock w /\
  escape_duration (snd (fst r)) = escape_duration self /\
  (fst (fst r) = false ->
   existsb is_quit evs = true \/
   exists i j, (k <= i < j)%nat /\ (j < clock_reads (snd r))%nat /\
               escape_held (snd (fst r)) = true /\
               escape_start (snd (fst r)) = Some (clock w i) /\
               clock w j - clock w i >= escape_duration self).
Proof.
  intros Hg r. subst r. rewrite process_parent_events_eq. cbv zeta.
  destruct (update_focus_spec self w) as (Hsh & Hgf & Hc & _).
  set (f := update_focus self w) in *.
  pose proof (event_loop_gesture evs (fst f) (snd f)) as Hl.
  destruct (event_loop_shape evs (fst f) (snd f)) as (Hsh' & Hc' & _).
  set (r := event_loop (fst f) evs (snd f)) in *.
  cbv zeta in Hl. rewrite Hgf, Hc in Hl.
  assert (Hst : started_after k (clock w) (gesture_of (snd (fst r)) (snd r))).
  { rewrite Hl. apply close_gesture_after_started. exact Hg. }
  assert (Hdur : escape_duration (snd (fst r)) = escape_duration self).
  { destruct Hsh as (_ & _ & Hd & _). destruct Hsh' as (_ & _ & Hd' & _). congruence. }
  assert (Hclk : clock (snd r) = clock w) by congruence.
  destruct (existsb is_quit evs).
  - cbn [fst snd]. split; [exact Hst|]. repeat split; auto.
  - unfold hold_check. unfold started_after, gesture_of in Hst.
    destruct Hst as [Hk Hheld].
    destruct (escape_held (snd (fst r))) eqn:Hh.
    + destruct (Hheld eq_refl) as (i & Hi & Hsi). rewrite Hsi.
      run_os. rewrite Hclk, Hdur.
      destruct (Rge_dec _ _) as [Hge|Hlt];
        unfold started_after, gesture_of; cbn [fst snd clock clock_reads];
        rewrite Hh.
      * split; [split; [lia|intros _; exists i; split; [lia|exact Hsi]]|].
        split; [reflexivity|]. split; [exact Hdur|]. intros _. right.
        exists i, (clock_reads (snd r)).
        split; [lia|]. split; [lia|]. split; [reflexivity|]. split; [exact Hsi|exact Hge].
      * split; [split; [lia|intros _; exists i; split; [lia|exact Hsi]]|].
        split; [reflexivity|]. split; [exact Hdur|]. discriminate.
    + unfold ret, started_after, gesture_of. cbn [fst snd]. rewrite Hh.
      split; [split; [exact Hk|discriminate]|].
      split; [exact Hclk|]. split; [exact Hdur|]. discriminate.
Qed.

Lemma started_after_later (k : nat) (clk : nat -> R) (held : bool)
  (start : option R) (n n' : nat) :
  (n <= n')%nat ->
  started_after k clk (held, start, n) -> started_after k clk (held, start, n').
Proof.
  intros Hn [Hk Hs]. split; [lia|]. intros Hh.
  destruct (Hs Hh) as (i & Hi & He). exists i. split; [lia|exact He].
Qed.

Lemma quit_in_batch (evs : list Event) :
  existsb is_quit evs = true -> In QUIT evs.
Proof.
  intros H. apply existsb_exists in H. destruct H as (ev & Hin & Hq).
  apply is_quit_true in Hq. subst ev. exact Hin.
Qed.

Lemma frame_loop_cons (self : CircularWindow) (idle : nat) (evs : list Event)
  (rest : list (nat * list Event)) (w : World) :
  frame_loop self ((idle, evs) :: rest) w =
  let r := process_parent_events self evs (snd (read_clock idle w)) in
  if fst (fst r) then frame_loop (snd (fst r)) rest (snd r) else r.
Proof.
  cbn [frame_loop]. unfold bind at 1.
  destruct (read_clock idle w) as [[] w1]. cbn [snd].
  unfold bind at 1, CircularWindow_handle_events.
  destruct (process_parent_events self evs w1) as [[b s] w2].
  destruct b; reflexivity.
Qed.

(** If the frame loop stops without any quit request, the hold that closed
    it spans a full duration between two clock readings numbered [k] or
    later. *)
Lemma frame_loop_started_after (k : nat) (frames : list (nat * list Event))
  (self : CircularWindow) (w : World) :
  started_after k (clock w) (gesture_of self w) ->
  (forall f, In f frames -> ~ In QUIT (snd f)) ->
  let r := frame_loop self frames w in
  fst (fst r) = false ->
  exists i j, (k <= i < j)%nat /\ (j < clock_reads (snd r))%nat /\
              escape_held (snd (fst r)) = true /\
              escape_start (snd (fst r)) = Some (clock w i) /\
              clock w j - clock w i >= escape_duration self.
Proof.
  revert self w. induction frames as [|[idle evs] rest IH]; intros self w Hg Hq.
  - cbn. discriminate.
  - rewrite frame_loop_cons. cbv zeta.
    destruct (read_clock_spec idle w) as [Hc1 Hn1].
    set (w1 := snd (read_clock idle w)) in *.
    assert (Hg1 : started_after k (clock w1) (gesture_of self w1)).
    { rewrite Hc1. unfold gesture_of in *.
      eapply started_after_later; [exact Hn1|exact Hg]. }
    destruct (frame_started_after k self evs w1 Hg1) as (Hg2 & Hc2 & Hd2 & Hstop).
    set (r := process_parent_events self evs w1) in *.
    destruct (fst (fst r)) eqn:Hb.
    + intros Hfalse.
      assert (Hg3 : started_after k (clock (snd r)) (gesture_of (snd (fst r)) (snd r)))
        by (rewrite Hc2; exact Hg2).
      destruct (IH (snd (fst r)) (snd r) Hg3
                   (fun f Hin => Hq f (or_intror Hin)) Hfalse)
        as (i & j & Hij & Hj & Hh & Hs & Hge).
      exists i, j. rewrite Hc2, Hc1, Hd2 in *. repeat split; auto; lia.
    + intros _. destruct (Hstop eq_refl) as [Hquit | (i & j & Hij & Hj & Hh & Hs & Hge)].
      * exfalso. apply (Hq (idle, evs)); [left; reflexivity|].
        apply quit_in_batch. exact Hquit.
      * exists i, j. rewrite Hc1 in *. repeat split; auto; lia.
Qed.

(** C7. A key-up of the close key resets the gesture whatever the time
    held: the hold flag is cleared and the recorded start is dropped, and
    nothing else changes.  After it, if the frame loop ever stops without a
    quit request, the window is in a hold whose recorded start is a clock
    reading taken after the release, and a later reading is at least the
    full duration past that start: no time held before the release
    counts. *)
Theorem release_resets_hold
  (self : CircularWindow) (w : World) (frames : list (nat * list Event)) :
  let released := snd (fst (process_event self (KEYUP K_ESCAPE) w)) in
  process_event self (KEYUP K_ESCAPE) w = ((None, set_escape false None self), w) /\
  escape_held released = false /\
  escape_start released = None /\
  ((forall f, In f frames -> ~ In QUIT (snd f)) ->
   let r := frame_loop released frames w in
   fst (fst r) = false ->
   exists i j, (clock_reads w <= i < j)%nat /\ (j < clock_reads (snd r))%nat /\
               escape_held (snd (fst r)) = true /\
               escape_start (snd (fst r)) = Some (clock w i) /\
               clock w j - clock w i >= escape_duration self).
Proof.
  assert (E : process_event self (KEYUP K_ESCAPE) w =
              ((None, set_escape false None self), w)) by reflexivity.
  rewrite E. cbn [fst snd]. split; [reflexivity|]. split; [reflexivity|].
  split; [reflexivity|]. intros Hq.
  apply (frame_loop_started_after (clock_reads w) frames
           (set_escape false None self) w); [|exact Hq].
  unfold started_after, gesture_of. cbn [escape_held set_escape].
  split; [lia|discriminate].
Qed.

Lemma release_resets_hold_witness :
  let self := set_escape true (Some 0) sample_window in
  let frames := [(O, [KEYDOWN K_ESCAPE]); (O, [])] in
  let r := frame_loop (set_escape false None self) frames (world_at 1) in
  fst (fst r) = false /\
  exists i j, (0 <= i < j)%nat /\ (j < clock_reads (snd r))%nat /\
              escape_held (snd (fst r)) = true /\
              escape_start (snd (fst r)) = Some (clock (world_at 1) i) /\
              clock (world_at 1) j - clock (world_at 1) i >= 1.5.
Proof.
  intros self frames r.
  assert (Hq : forall f, In f frames -> ~ In QUIT (snd f)).
  { intros f [H | [H | []]]; subst f; cbn; intuition discriminate. }
  assert (Hr : fst (fst r) = false).
  { subst r frames self. rewrite !frame_loop_cons. cbv zeta.
    rewrite !process_parent_events_eq. cbv zeta.
    cbn. rdec. cbn.
    unfold CircularWindow_handle_events, process_parent_events, update_focus.
    run_os. cbn. rdec. reflexivity. }
  split; [exact Hr|].
  exact (proj2 (proj2 (proj2 (release_resets_hold self (world_at 1) frames))) Hq Hr).
Defined.

(** ** C6: focus loss collapses, focus gain does not expand *)

(** What a whole poll does to the expansion state when the batch holds no
    activation click. *)
Lemma parent_expansion (self : CircularWindow) (evs : list Event) (w : World) :
  (forall ev, In ev evs -> ~ activation_click self ev) ->
  let self' := snd (fst (process_parent_events self evs w)) in
  if negb (hwnd self =? foreground w (foreground_reads w))%Z && expanded self
  then expanded self' = false /\ target_radius self' = min_radius self
  else expanded self' = expanded self /\ target_radius self' = target_radius self.
Proof.
  intros Hno self'. subst self'. rewrite process_parent_events_eq. cbv zeta.
  destruct (update_focus_spec self w) as (Hsh & _ & _ & _ & Hfocus).
  set (f := update_focus self w) in *.
  assert (Hno' : forall ev, In ev evs -> ~ activation_click (fst f) ev).
  { intros ev Hin Hact. apply (Hno ev Hin).
    eapply activation_click_shape; eassumption. }
  destruct (event_loop_expansion evs (fst f) (snd f) Hno') as [He Ht].
  set (r := event_loop (fst f) evs (snd f)) in *.
  assert (Hfinal : snd (fst (if existsb is_quit evs
                             then ((false, snd (fst r)), snd r)
                             else hold_check (snd (fst r)) (snd r))) = snd (fst r)).
  { destruct (existsb is_quit evs); [reflexivity|apply hold_check_state]. }
  rewrite Hfinal, He, Ht. exact Hfocus.
Qed.

Lemma press_button_spec (self : TimerWindow) (name : string) (w : World) :
  let r := press_button self name w in
  base (fst r) = base self /\ click_handled (fst r) = click_handled self /\
  clock (snd r) = clock w.
Proof.
  unfold press_button. run_os. split_ifs; cbn; repeat split; reflexivity.
Qed.

Lemma click_first_spec (items : list (string * Rect)) (self : TimerWindow)
  (pos : Z * Z) (w : World) :
  let r := click_first self items pos w in
  base (snd (fst r)) = base self /\
  click_handled (snd (fst r)) = click_handled self /\
  clock (snd r) = clock w /\
  (fst (fst r) = false -> snd r = w).
Proof.
  induction items as [|[name rect] rest IH]; cbn [click_first].
  - cbn. repeat split; reflexivity.
  - destruct (collidepoint rect pos); [|exact IH].
    unfold bind at 1 2 3 4.
    destruct (press_button_spec self name w) as (Hb & Hc & Hk).
    destruct (press_button self name w) as [s w']. cbn [fst snd] in *.
    repeat split; auto. discriminate.
Qed.

(** One step of the timer's own loop: the shell state is untouched, a
    handled click is remembered, and unless a click is handled nothing is
    read from the system. *)
Lemma timer_event_spec (self : TimerWindow) (ev : Event) (w : World) :
  let r := timer_event self ev w in
  base (fst r) = base self /\ clock (snd r) = clock w /\
  (click_handled self = true -> click_handled (fst r) = true) /\
  (click_handled (fst r) = false -> snd r = w).
Proof.
  destruct ev; try (cbn; repeat split; auto; fail).
  - cbn [timer_event]. destruct (_ && _); cbn; repeat split; auto.
  - cbn [timer_event]. destruct (button =? 1)%Z.
    + unfold handle_button_click.
      destruct (negb (expanded (base self))).
      * cbn. repeat split; auto.
      * unfold bind at 1 2 3 4 5.
        destruct (click_first_spec (buttons self) self pos w) as (Hb & Hc & Hk & Hw).
        destruct (click_first self (buttons self) pos w) as [[handled s] w'].
        cbn [fst snd] in *.
        destruct handled; cbn; repeat split; auto;
          intros; try discriminate; try congruence; auto.
    + destruct (_ && _); cbn; repeat split; auto.
Qed.

Lemma timer_events_spec (evs : list Event) (self : TimerWindow) (w : World) :
  let r := timer_events self evs w in
  base (fst r) = base self /\ clock (snd r) = clock w /\
  (click_handled self = true -> click_handled (fst r) = true) /\
  (click_handled (fst r) = false -> snd r = w).
Proof.
  revert self w. induction evs as [|ev rest IH]; intros self w.
  - cbn. repeat split; auto.
  - cbn [timer_events]. unfold bind at 1 2 3 4 5.
    destruct (timer_event_spec self ev w) as (Hb & Hc & Hm & Hw).
    destruct (timer_event self ev w) as [s w']. cbn [fst snd] in *.
    destruct (IH s w') as (Hb' & Hc' & Hm' & Hw').
    repeat split; try congruence.
    + intros H. apply Hm', Hm, H.
    + intros H. rewrite (Hw' H).
      apply Hw. destruct (click_handled s) eqn:Hs; [|reflexivity].
      rewrite (Hm' eq_refl) in H. discriminate.
Qed.

(** [TimerWindow.handle_events] either skips the parent or runs it on the
    untouched shell state. *)
Lemma handle_events_eq (self : TimerWindow) (evs : list Event) (w : World) :
  let t := timer_events (set_click_handled false self) evs w in
  handle_events self evs w =
  if click_handled (fst t)
  then ((true, fst t), snd t)
  else let r := process_parent_events (base self) evs w in
       ((fst (fst r), set_base (snd (fst r)) (fst t)), snd r).
Proof.
  cbv zeta. unfold handle_events. unfold bind at 1.
  destruct (timer_events_spec evs (set_click_handled false self) w)
    as (Hb & _ & _ & Hw).
  destruct (timer_events (set_click_handled false self) evs w) as [s w'].
  cbn [fst snd] in *. destruct (click_handled s); cbn [negb]; [reflexivity|].
  rewrite (Hw eq_refl), Hb. cbn [base set_click_handled].
  unfold bind, ret. destruct (process_parent_events (base self) evs w) as [[b s'] w''].
  reflexivity.
Qed.

(** C6. When the window is found not to be the foreground window while
    expanded, the focus check sets it collapsed with the minimum radius as
    target, and the poll ends in that state unless the batch holds an
    activation click.  A collapsed window is still collapsed, with its
    target unchanged, after a frame of [TimerWindow.handle_events] whatever
    the foreground window is, unless the batch holds an activation click:
    regaining focus does not expand it, and if the frame ends expanded the
    batch held an activation click. *)
Theorem focus_loss_collapses_only_click_expands
  (tw : TimerWindow) (evs : list Event) (w : World) :
  (expanded (base tw) = true ->
   foreground w (foreground_reads w) <> hwnd (base tw) ->
   let focused := fst (update_focus (base tw) w) in
   let self' := snd (fst (process_parent_events (base tw) evs w)) in
   has_focus focused = false /\ expanded focused = false /\
   target_radius focused = min_radius (base tw) /\
   ((forall ev, In ev evs -> ~ activation_click (base tw) ev) ->
    expanded self' = false /\ target_radius self' = min_radius (base tw))) /\
  (expanded (base tw) = false ->
   let tw' := snd (fst (handle_events tw evs w)) in
   ((forall ev, In ev evs -> ~ activation_click (base tw) ev) ->
    expanded (base tw') = false /\
    target_radius (base tw') = target_radius (base tw)) /\
   (expanded (base tw') = true ->
    exists ev, In ev evs /\ activation_click (base tw) ev)).
Proof.
  assert (Hcollapsed :
            expanded (base tw) = false ->
            (forall ev, In ev evs -> ~ activation_click (base tw) ev) ->
            expanded (base (snd (fst (handle_events tw evs w)))) = false /\
            target_radius (base (snd (fst (handle_events tw evs w)))) =
              target_radius (base tw)).
  { intros He Hno.
    pose proof (parent_expansion (base tw) evs w Hno) as Hp. cbv zeta in Hp.
    rewrite handle_events_eq. cbv zeta.
    destruct (timer_events_spec evs (set_click_handled false tw) w) as (Hb & _).
    cbn [base set_click_handled] in Hb.
    destruct (click_handled _); cbn [fst snd base set_base].
    - rewrite Hb. split; [exact He|reflexivity].
    - rewrite He, andb_false_r in Hp. exact Hp. }
  split.
  - intros He Hfg focused self'. subst focused self'.
    destruct (update_focus_spec (base tw) w) as (_ & _ & _ & Hhf & Hf).
    assert (Hneq : (hwnd (base tw) =? foreground w (foreground_reads w))%Z = false).
    { apply Z.eqb_neq. congruence. }
    rewrite Hneq, He in Hf. rewrite Hneq in Hhf. cbn [negb andb] in Hf.
    destruct Hf as [H1 H2].
    split; [exact Hhf|]. split; [exact H1|]. split; [exact H2|].
    intros Hno.
    pose proof (parent_expansion (base tw) evs w Hno) as Hp. cbv zeta in Hp.
    rewrite Hneq, He in Hp. exact Hp.
  - intros He tw'. subst tw'. split; [exact (Hcollapsed He)|].
    intros Hexp.
    destruct (classic (exists ev, In ev evs /\ activation_click (base tw) ev))
      as [Hyes | Hnone]; [exact Hyes|].
    exfalso.
    assert (Hno : forall ev, In ev evs -> ~ activation_click (base tw) ev).
    { intros ev Hin Hact. apply Hnone. exists ev. split; assumption. }
    destruct (Hcollapsed He Hno) as [Hfalse _]. congruence.
Qed.

Lemma focus_loss_collapses_only_click_expands_witness :
  let evs := [MOUSEMOTION (3, 3)%Z; KEYDOWN K_RETURN] in
  (expanded (snd (fst (process_parent_events (base sample_timer) evs
                         world_unfocused))) = false) /\
  (expanded (base (snd (fst (handle_events (set_base collapsed_window sample_timer)
                               evs sample_world)))) = false).
Proof.
  intros evs.
  assert (Hno : forall tw ev, In ev evs -> ~ activation_click (base tw) ev).
  { intros tw ev [H | [H | []]] (pos & E & _); subst ev; discriminate. }
  assert (Hfg : foreground world_unfocused (foreground_reads world_unfocused)
                <> hwnd (base sample_timer)).
  { cbn. discriminate. }
  destruct (focus_loss_collapses_only_click_expands sample_timer evs world_unfocused)
    as [Hloss _].
  destruct (focus_loss_collapses_only_click_expands
              (set_base collapsed_window sample_timer) evs sample_world)
    as [_ Hgain].
  split.
  - exact (proj1 (proj2 (proj2 (proj2 (Hloss eq_refl Hfg))) (Hno _))).
  - exact (proj1 (proj1 (Hgain eq_refl) (Hno _))).
Defined.

(** ** C1: the stop decision of a frame *)

Lemma quit_stops_parent (self : CircularWindow) (evs : list Event) (w : World) :
  In QUIT evs -> fst (fst (process_parent_events self evs w)) = false.
Proof.
  intros Hin. rewrite process_parent_events_eq. cbv zeta.
  assert (Hq : existsb is_quit evs = true).
  { apply existsb_exists. exists QUIT. split; [exact Hin|reflexivity]. }
  rewrite Hq. reflexivity.
Qed.

(** Once the timer's own loop has handled a button click, the frame answers
    continue and the shell sees none of the batch. *)
Lemma handled_click_skips_parent (self : TimerWindow) (evs : list Event) (w : World) :
  click_handled (fst (timer_events (set_click_handled false self) evs w)) = true ->
  fst (fst (handle_events self evs w)) = true /\
  base (snd (fst (handle_events self evs w))) = base self.
Proof.
  intros H. rewrite handle_events_eq. cbv zeta. rewrite H. cbn [fst snd].
  split; [reflexivity|].
  apply (timer_events_spec evs (set_click_handled false self) w).
Qed.

(** C1. A batch that holds a quit request together with a primary press on
    the start button: [TimerWindow.handle_events] answers continue, although
    [process_parent_events] on the same window and batch answers stop. *)
Theorem quit_lost_after_button_click :
  let evs := [MOUSEBUTTONDOWN 1 (200, 290)%Z; QUIT] in
  fst (fst (handle_events sample_timer evs sample_world)) = true /\
  fst (fst (process_parent_events (base sample_timer) evs sample_world)) = false.
Proof.
  intros evs. split.
  - apply handled_click_skips_parent. reflexivity.
  - apply quit_stops_parent. right. left. reflexivity.
Qed.

(** ** C2: routing of the close key *)

(** The gesture fields after a poll are the close-gesture logic folded over
    the events before the first quit request. *)
Lemma parent_gesture (self : CircularWindow) (evs : list Event) (w : World) :
  let self' := snd (fst (process_parent_events self evs w)) in
  (escape_held self', escape_start self') =
  fst (close_gesture_after (clock w) (gesture_of self w) (before_quit evs)).
Proof.
  intros self'. subst self'. rewrite process_parent_events_eq. cbv zeta.
  destruct (update_focus_spec self w) as (_ & Hg & Hc & _).
  set (f := update_focus self w) in *.
  pose proof (event_loop_gesture evs (fst f) (snd f)) as Hl. cbv zeta in Hl.
  set (r := event_loop (fst f) evs (snd f)) in *.
  rewrite Hg, Hc in Hl. rewrite <- Hl.
  assert (Hfinal : snd (fst (if existsb is_quit evs
                             then ((false, snd (fst r)), snd r)
                             else hold_check (snd (fst r)) (snd r))) = snd (fst r)).
  { destruct (existsb is_quit evs); [reflexivity|apply hold_check_state]. }
  rewrite Hfinal. reflexivity.
Qed.

(** C2 as stated fails: a key-down of the close key that follows a quit
    request in the batch never reaches the close-gesture logic, so the
    gesture fields after the frame are not the close-gesture logic folded
    over every close-key event of the batch. *)
Lemma close_key_after_quit_not_routed :
  let evs := [QUIT; KEYDOWN K_ESCAPE] in
  let tw' := snd (fst (handle_events sample_timer evs sample_world)) in
  (escape_held (base tw'), escape_start (base tw')) <>
  fst (close_gesture_after (clock sample_world)
         (gesture_of (base sample_timer) sample_world) evs).
Proof.
  intros evs tw'. subst tw'. rewrite handle_events_eq. cbv zeta.
  replace (click_handled (fst (timer_events (set_click_handled false sample_timer)
                                 evs sample_world))) with false by reflexivity.
  cbn [fst snd base set_base]. rewrite parent_gesture.
  cbn. intros H. inversion H.
Qed.

(** C2 (amended). Whenever the frame's batch is handed to the shell (no
    click was consumed by a button), every key-down and key-up of the close
    key that precedes the first quit request of the batch is routed to the
    close-gesture logic, whatever else the batch holds: the hold flag and
    the recorded start after the frame are that logic folded over those
    events; the same holds for [process_parent_events] on every batch. *)
Theorem close_keys_before_quit_routed
  (tw : TimerWindow) (evs : list Event) (w : World) :
  (let self' := snd (fst (process_parent_events (base tw) evs w)) in
   (escape_held self', escape_start self') =
   fst (close_gesture_after (clock w) (gesture_of (base tw) w) (before_quit evs))) /\
  (let tw' := snd (fst (handle_events tw evs w)) in
   click_handled tw' = false ->
   (escape_held (base tw'), escape_start (base tw')) =
   fst (close_gesture_after (clock w) (gesture_of (base tw) w) (before_quit evs))).
Proof.
  split; [apply parent_gesture|].
  cbv zeta. rewrite handle_events_eq. cbv zeta.
  destruct (click_handled (fst (timer_events (set_click_handled false tw) evs w)))
    eqn:Hc; cbn [fst snd].
  - intros H. congruence.
  - intros _. cbn [base set_base]. apply parent_gesture.
Qed.

Lemma close_keys_before_quit_routed_witness :
  let evs := [KEYDOWN K_ESCAPE; OTHER 1; KEYUP K_ESCAPE; KEYDOWN K_ESCAPE; QUIT;
              KEYUP K_ESCAPE] in
  let tw' := snd (fst (handle_events sample_timer evs (world_at 4))) in
  (escape_held (base tw'), escape_start (base tw')) = (true, Some (4 + INR 1)).
Proof.
  intros evs tw'.
  apply (proj2 (close_keys_before_quit_routed sample_timer evs (world_at 4))).
  reflexivity.
Defined.

(** ** C9: configuration from the command line *)

Local Open Scope Z_scope.
Local Open Scope string_scope.

Lemma split_no_sep (sep : ascii) (s : string) :
  has_char sep s = false -> split sep s = [s].
Proof.
  induction s as [|c rest IH]; cbn; [reflexivity|].
  destruct (Ascii.eqb c sep); cbn; [discriminate|].
  intros H. rewrite (IH H). reflexivity.
Qed.

Lemma split_field (sep : ascii) (field rest : string) :
  has_char sep field = false ->
  split sep (field ++ String sep rest) = field :: split sep rest.
Proof.
  induction field as [|c f IH]; cbn.
  - intros _. rewrite Ascii.eqb_refl. reflexivity.
  - destruct (Ascii.eqb c sep); cbn; [discriminate|].
    intros H. rewrite (IH H). reflexivity.
Qed.

(** What [split] returns glues back to the text, and no field holds the
    separator. *)
Lemma split_fields (sep : ascii) (s : string) :
  match split sep s with
  | [] => False
  | first :: others =>
      has_char sep first = false /\
      Forall (fun f => has_char sep f = false) others /\
      s = fold_left (fun acc f => acc ++ String sep f) others first
  end.
Proof.
  induction s as [|c rest IH]; cbn [split].
  - cbn. repeat split. constructor.
  - destruct (split sep rest) as [|first others]; [contradiction|].
    destruct IH as (Hf & Ho & Hs).
    assert (Hglue : forall (l : list string) (a : string),
               String c (fold_left (fun acc f => acc ++ String sep f) l a) =
               fold_left (fun acc f => acc ++ String sep f) l (String c a)).
    { induction l as [|x l IHl]; intros a; cbn; [reflexivity|]. apply IHl. }
    destruct (Ascii.eqb c sep) eqn:Hc.
    + apply Ascii.eqb_eq in Hc. subst c. cbn [has_char]. split; [reflexivity|].
      split; [constructor; assumption|].
      cbn [fold_left]. cbn [append]. rewrite Hs at 1.
      clear. generalize first. induction others as [|x l IHl]; intros a; cbn.
      * reflexivity.
      * rewrite <- IHl. reflexivity.
    + cbn [has_char]. rewrite Hc. cbn [orb]. split; [exact Hf|]. split; [exact Ho|].
      rewrite Hs at 1. apply Hglue.
Qed.

Lemma append_assoc3 (a b c : string) : (a ++ b) ++ c = a ++ b ++ c.
Proof. induction a as [|x a IH]; cbn; [reflexivity|]. rewrite IH. reflexivity. Qed.

Lemma rgb_text_split (int : string -> option Z) (s : string) (r g b : Z) :
  rgb_text int s r g b ->
  exists fr fg fb, split "," s = [fr; fg; fb] /\
                   int fr = Some r /\ int fg = Some g /\ int fb = Some b /\
                   0 <= r <= 255 /\ 0 <= g <= 255 /\ 0 <= b <= 255.
Proof.
  intros (fr & fg & fb & Hs & Hr & Hg & Hb & Hrest).
  exists fr, fg, fb. split; [|exact Hrest].
  subst s. cbn [append].
  rewrite (split_field "," fr _ Hr), (split_field "," fg _ Hg), (split_no_sep "," fb Hb).
  reflexivity.
Qed.

Lemma in_byte_range (x : Z) : in_byte x = true <-> 0 <= x <= 255.
Proof. unfold in_byte. rewrite andb_true_iff, !Z.leb_le. tauto. Qed.

(** A well-formed colour is kept. *)
Lemma rgb_text_parse (int : string -> option Z) (s : string) (r g b : Z) :
  rgb_text int s r g b -> parse_bg_color int s = (r, g, b).
Proof.
  intros H. apply rgb_text_split in H.
  destruct H as (fr & fg & fb & Hs & Hr & Hg & Hb & Rr & Rg & Rb).
  unfold parse_bg_color. rewrite Hs. cbn [map_int]. rewrite Hr, Hg, Hb.
  cbn [List.length Nat.eqb negb orb forallb].
  apply in_byte_range in Rr, Rg, Rb. rewrite Rr, Rg, Rb. reflexivity.
Qed.

(** Anything else is the default colour. *)
Lemma parse_bg_color_cases (int : string -> option Z) (s : string) :
  parse_bg_color int s = default_color \/
  exists r g b, rgb_text int s r g b /\ parse_bg_color int s = (r, g, b).
Proof.
  unfold parse_bg_color.
  pose proof (split_fields "," s) as Hsplit.
  destruct (split "," s) as [|fr fields]; [contradiction|].
  destruct Hsplit as (Hfr & Hfields & Hs).
  destruct (map_int int (fr :: fields)) as [bg|] eqn:Hm; [|left; reflexivity].
  destruct (negb (List.length bg =? 3)%nat || negb (forallb in_byte bg)) eqn:Hc;
    [left; reflexivity|].
  apply orb_false_iff in Hc. destruct Hc as [Hlen Hall].
  apply negb_false_iff in Hlen, Hall. apply Nat.eqb_eq in Hlen.
  destruct bg as [|r [|g [|b [|? ?]]]]; try discriminate.
  right. exists r, g, b. split; [|reflexivity].
  cbn [map_int] in Hm.
  destruct (int fr) as [r'|] eqn:Hr; [|discriminate].
  destruct fields as [|fg fields]; [discriminate|]. cbn [map_int] in Hm.
  destruct (int fg) as [g'|] eqn:Hg; [|discriminate].
  destruct fields as [|fb fields]; [discriminate|]. cbn [map_int] in Hm.
  destruct (int fb) as [b'|] eqn:Hb; [|discriminate].
  destruct fields as [|fx fields].
  - cbn [map_int] in Hm. inversion Hm; subst r' g' b'.
    cbn [forallb] in Hall. rewrite !andb_true_iff in Hall.
    destruct Hall as (Rr & Rg & Rb & _).
    apply in_byte_range in Rr, Rg, Rb.
    inversion Hfields as [|? ? Hfg Hrest]; subst.
    inversion Hrest as [|? ? Hfb _]; subst.
    exists fr, fg, fb. cbn [fold_left]. cbn [append].
    rewrite append_assoc3. cbn [append].
    repeat split; auto; lia.
  - cbn [map_int] in Hm. destruct (int fx); [|discriminate].
    destruct (map_int int fields); discriminate.
Qed.

(** C9. For every integer number of minutes the timer starts with
    max(60, min(5400, minutes * 60)) seconds, between 60 and 5400; a colour
    argument that is not three comma-separated integers in [0, 255] gives
    the default colour (0, 120, 255), one that is gives its three values,
    and in both cases the window gets a colour with components in
    [0, 255]: setting up the window never fails. *)
Theorem configuration_normalized
  (int : string -> option Z) (minutes : Z) (start : bool) (color : string)
  (w : World) :
  let tw := fst (main_setup int minutes start color w) in
  seconds tw = Z.max 60 (Z.min 5400 (minutes * 60)) /\
  60 <= seconds tw <= 5400 /\
  ((~ exists r g b, rgb_text int color r g b) ->
     parse_bg_color int color = (0, 120, 255) /\
     bg_color tw = (0, 120, 255, 255)) /\
  (forall r g b, rgb_text int color r g b -> bg_color tw = (r, g, b, 255)) /\
  (exists r g b, bg_color tw = (r, g, b, 255) /\
                 0 <= r <= 255 /\ 0 <= g <= 255 /\ 0 <= b <= 255).
Proof.
  intros tw.
  assert (Hsec : seconds tw = Z.max 60 (Z.min 5400 (minutes * 60))) by reflexivity.
  assert (Hbg : bg_color tw =
                (fst (fst (parse_bg_color int color)),
                 snd (fst (parse_bg_color int color)),
                 snd (parse_bg_color int color), 255)) by reflexivity.
  split; [exact Hsec|]. split; [rewrite Hsec; lia|].
  rewrite Hbg. split; [|split].
  - intros Hbad.
    destruct (parse_bg_color_cases int color) as [Hd | (r & g & b & Ht & _)].
    + rewrite Hd. split; reflexivity.
    + exfalso. apply Hbad. exists r, g, b. exact Ht.
  - intros r g b Ht. rewrite (rgb_text_parse int color r g b Ht). reflexivity.
  - destruct (parse_bg_color_cases int color) as [Hd | (r & g & b & Ht & Hp)].
    + rewrite Hd. exists 0, 120, 255. cbn. repeat split; lia.
    + rewrite Hp. exists r, g, b. cbn [fst snd].
      destruct Ht as (fr & fg & fb & _ & _ & _ & _ & _ & _ & _ & Rr & Rg & Rb).
      repeat split; lia.
Qed.

Lemma configuration_normalized_witness :
  let tw := fst (main_setup PyInt.int 200 false "300,0,0" sample_world) in
  seconds tw = 5400 /\ bg_color tw = (0, 120, 255, 255).
Proof.
  intros tw.
  destruct (configuration_normalized PyInt.int 200 false "300,0,0" sample_world)
    as (Hs & _ & Hbad & _).
  split; [exact Hs|]. apply Hbad.
  intros (r & g & b & Ht). apply rgb_text_split in Ht.
  destruct Ht as (fr & fg & fb & Hsplit & Hr & _ & _ & Rr & _).
  cbn in Hsplit. inversion Hsplit; subst fr fg fb.
  vm_compute in Hr. inversion Hr; subst r. lia.
Defined.

(** ** Sanity checks of the embedding on concrete inputs *)

Example int_examples :
  PyInt.int " 1_0 " = Some 10 /\ PyInt.int "-7" = Some (-7) /\
  PyInt.int "1__0" = None /\ PyInt.int "" = None /\ PyInt.int "1.5" = None.
Proof. repeat split; reflexivity. Qed.

Example split_examples :
  split "," "0,120,255" = ["0"; "120"; "255"] /\
  split "," "a,,b" = ["a"; ""; "b"] /\ split "," "" = [""].
Proof. repeat split; reflexivity. Qed.

Example parse_bg_color_examples :
  parse_bg_color PyInt.int "10, 20 ,30" = (10, 20, 30) /\
  parse_bg_color PyInt.int "1,2" = (0, 120, 255) /\
  parse_bg_color PyInt.int "1,2,256" = (0, 120, 255) /\
  parse_bg_color PyInt.int "blue" = (0, 120, 255).
Proof. repeat split; reflexivity. Qed.

Example start_button_at_400 :
  buttons sample_timer =
    [("start", mkRect 150 280 100 33); ("reset", mkRect 150 328 100 33);
     ("up", mkRect 300 184 33 33); ("down", mkRect 80 184 33 33)].
Proof. reflexivity. Qed.

(** The float product is truncated after rounding: 300 * 0.82 is just
    below 246. *)
Example reset_button_at_300 :
  map (fun b => ry (snd b)) (original_buttons 300) = [210; 245; 138; 138]%Z /\
  map (fun b => rx (snd b)) (original_buttons 300) = [113; 113; 225; 60]%Z.
Proof. split; reflexivity. Qed.

Example start_click_toggles_running :
  let r := handle_events sample_timer [MOUSEBUTTONDOWN 1 (200, 290)] sample_world in
  running (snd (fst r)) = true /\ click_handled (snd (fst r)) = true /\
  dragging (base (snd (fst r))) = false.
Proof. repeat split; reflexivity. Qed.


(** * Further properties of the shell and the timer *)

Local Open Scope R_scope.

(** ** Lifting a step property to a whole poll *)

Lemma hold_check_world (self : CircularWindow) (w : World) :
  let w' := snd (hold_check self w) in
  clock w' = clock w /\ cursor w' = cursor w /\ cursor_reads w' = cursor_reads w /\
  foreground w' = foreground w /\ foreground_reads w' = foreground_reads w /\
  screen w' = screen w /\ windows w' = windows w.
Proof.
  unfold hold_check. run_os. split_ifs; cbn; repeat split; reflexivity.
Qed.

(** A relation between (state, system) pairs that the focus check, every
    event and the hold check respect is respected by the whole poll. *)
Lemma poll_respects (Rel : CircularWindow * World -> CircularWindow * World -> Prop) :
  (forall a, Rel a a) ->
  (forall a b c, Rel a b -> Rel b c -> Rel a c) ->
  (forall self w, Rel (self, w) (update_focus self w)) ->
  (forall self ev w,
      Rel (self, w) (snd (fst (process_event self ev w)), snd (process_event self ev w))) ->
  (forall self w, Rel (self, w) (self, snd (hold_check self w))) ->
  forall self evs w,
    Rel (self, w) (snd (fst (process_parent_events self evs w)),
                   snd (process_parent_events self evs w)).
Proof.
  intros Hrefl Htrans Hfocus Hevent Hcheck self evs w.
  assert (Hloop : forall evs self w,
             Rel (self, w) (snd (fst (event_loop self evs w)), snd (event_loop self evs w))).
  { clear self evs w. induction evs as [|ev rest IH]; intros self w.
    - cbn. apply Hrefl.
    - rewrite event_loop_cons. cbv zeta.
      destruct (is_quit ev); cbn [fst snd]; [apply Hevent|].
      eapply Htrans; [apply Hevent|apply IH]. }
  rewrite process_parent_events_eq. cbv zeta.
  eapply Htrans; [apply Hfocus|].
  destruct (update_focus self w) as [s1 w1]. cbn [fst snd].
  eapply Htrans; [apply Hloop|].
  destruct (existsb is_quit evs); cbn [fst snd]; [apply Hrefl|].
  destruct (hold_check_state (snd (fst (event_loop s1 evs w1))) (snd (event_loop s1 evs w1)))
    as [Hs _].
  rewrite Hs. apply Hcheck.
Qed.

Lemma poll_preserves (P : CircularWindow -> Prop) :
  (forall self w, P self -> P (fst (update_focus self w))) ->
  (forall self ev w, P self -> P (snd (fst (process_event self ev w)))) ->
  forall self evs w, P self -> P (snd (fst (process_parent_events self evs w))).
Proof.
  intros Hfocus Hevent self evs w.
  apply (poll_respects (fun a b => P (fst a) -> P (fst b))); cbn [fst snd]; auto.
Qed.

(** ** Invariants of the drag and close-gesture state *)

Lemma update_focus_fields (self : CircularWindow) (w : World) :
  let s := fst (update_focus self w) in
  dragging s = dragging self /\ drag_offset s = drag_offset self /\
  escape_held s = escape_held self /\ escape_start s = escape_start self /\
  size_transition_speed s = size_transition_speed self.
Proof.
  unfold update_focus. run_os. cbn [has_focus set_has_focus expanded].
  destruct (negb _ && expanded self); cbn; repeat split; reflexivity.
Qed.

Lemma process_event_drag_ok (self : CircularWindow) (ev : Event) (w : World) :
  drag_ok self -> drag_ok (snd (fst (process_event self ev w))).
Proof.
  unfold drag_ok. intros H.
  destruct ev; unfold process_event, handle_window_click, update_window_pos;
    run_os; split_ifs; cbn; try exact H; intros; try congruence; auto;
    exfalso; apply H; reflexivity.
Qed.

Lemma process_event_gesture_ok (self : CircularWindow) (ev : Event) (w : World) :
  gesture_ok self -> gesture_ok (snd (fst (process_event self ev w))).
Proof.
  unfold gesture_ok. intros H.
  destruct ev; unfold process_event, handle_window_click, update_window_pos;
    run_os; split_ifs; cbn; try exact H; split; intros; congruence.
Qed.

(** X1. A poll keeps the drag state and the close-gesture state well
    formed: if dragging implies a captured offset before, it does after;
    if the hold flag is set exactly when a start time is recorded before,
    it is after. *)
Theorem poll_keeps_drag_and_gesture_well_formed
  (self : CircularWindow) (evs : list Event) (w : World) :
  let self' := snd (fst (process_parent_events self evs w)) in
  (drag_ok self -> drag_ok self') /\ (gesture_ok self -> gesture_ok self').
Proof.
  cbv zeta. split.
  - apply (poll_preserves drag_ok).
    + intros s w0 H. unfold drag_ok in *.
      destruct (update_focus_fields s w0) as (Hd & Ho & _). rewrite Hd, Ho. exact H.
    + intros s ev w0. apply process_event_drag_ok.
  - apply (poll_preserves gesture_ok).
    + intros s w0 H. unfold gesture_ok in *.
      destruct (update_focus_fields s w0) as (_ & _ & Hh & Hs & _). rewrite Hh, Hs. exact H.
    + intros s ev w0. apply process_event_gesture_ok.
Qed.

Lemma poll_keeps_drag_and_gesture_well_formed_witness :
  let self' := snd (fst (process_parent_events sample_window
                           [KEYDOWN K_ESCAPE; MOUSEBUTTONUP 1 (0, 0)%Z] sample_world)) in
  drag_ok self' /\ gesture_ok self'.
Proof.
  intros self'.
  destruct (poll_keeps_drag_and_gesture_well_formed sample_window
              [KEYDOWN K_ESCAPE; MOUSEBUTTONUP 1 (0, 0)%Z] sample_world) as [Hd Hg].
  split.
  - apply Hd. unfold drag_ok. cbn. discriminate.
  - apply Hg. unfold gesture_ok. cbn. split; intros; congruence.
Defined.


(** ** The state reachable from the constructor *)

Lemma process_event_speed (self : CircularWindow) (ev : Event) (w : World) :
  size_transition_speed (snd (fst (process_event self ev w))) =
  size_transition_speed self.
Proof.
  destruct ev; unfold process_event, handle_window_click, update_window_pos;
    run_os; split_ifs; reflexivity.
Qed.

Lemma update_focus_target_ok (self : CircularWindow) (w : World) :
  target_ok self -> target_ok (fst (update_focus self w)).
Proof.
  unfold target_ok. intros H.
  destruct (update_focus_spec self w) as ((_ & _ & _ & _ & Hmin & Hmax) & _ & _ & _ & Hf).
  destruct (negb _ && expanded self).
  - destruct Hf as [He Ht]. rewrite He, Ht, Hmin. reflexivity.
  - destruct Hf as [He Ht]. rewrite He, Ht, Hmin, Hmax. exact H.
Qed.

Lemma process_event_target_ok (self : CircularWindow) (ev : Event) (w : World) :
  target_ok self -> target_ok (snd (fst (process_event self ev w))).
Proof.
  unfold target_ok. intros H.
  destruct (process_event_shape self ev w) as ((_ & _ & _ & _ & Hmin & Hmax) & _).
  destruct (process_event_expansion self ev w) as [[He Ht] | (_ & _ & He & Ht)].
  - rewrite He, Ht, Hmin, Hmax. exact H.
  - rewrite He, Ht, Hmax. reflexivity.
Qed.

Lemma poll_shell_ok (self : CircularWindow) (evs : list Event) (w : World) :
  shell_ok self -> shell_ok (snd (fst (process_parent_events self evs w))).
Proof.
  apply (poll_preserves shell_ok).
  - intros s w0 (Hr & Ht & Hd & Hg & Hv).
    destruct (update_focus_spec s w0) as ((_ & _ & _ & Hc & Hmin & Hmax) & _).
    destruct (update_focus_fields s w0) as (Hdr & Hof & Hh & Hs & Hsp).
    split; [unfold radius_ok in *; rewrite Hc, Hmin, Hmax; exact Hr|].
    split; [apply update_focus_target_ok; exact Ht|].
    split; [unfold drag_ok in *; rewrite Hdr, Hof; exact Hd|].
    split; [unfold gesture_ok in *; rewrite Hh, Hs; exact Hg|].
    rewrite Hsp. exact Hv.
  - intros s ev w0 (Hr & Ht & Hd & Hg & Hv).
    destruct (process_event_shape s ev w0) as ((_ & _ & _ & Hc & Hmin & Hmax) & _).
    split; [unfold radius_ok in *; rewrite Hc, Hmin, Hmax; exact Hr|].
    split; [apply process_event_target_ok; exact Ht|].
    split; [apply process_event_drag_ok; exact Hd|].
    split; [apply process_event_gesture_ok; exact Hg|].
    rewrite process_event_speed. exact Hv.
Qed.

Lemma update_size_shell_ok (self : CircularWindow) :
  shell_ok self -> shell_ok (update_size self).
Proof.
  intros (Hr & Ht & Hd & Hg & Hv).
  destruct (update_size_fields self) as (Htg & Hmin & Hmax & Hsp).
  destruct (update_size_step self Hv) as [Hup Hdown].
  unfold radius_ok, target_ok in *.
  assert (Hother : expanded (update_size self) = expanded self /\
                   dragging (update_size self) = dragging self /\
                   drag_offset (update_size self) = drag_offset self /\
                   escape_held (update_size self) = escape_held self /\
                   escape_start (update_size self) = escape_start self).
  { unfold update_size. destruct (Rgt_dec _ _); repeat split; reflexivity. }
  destruct Hother as (He & Hdr & Hof & Hh & Hs).
  split.
  { unfold radius_ok. rewrite Hmin, Hmax.
    destruct (expanded self).
    - assert (H : current_radius self <= target_radius self) by lra.
      specialize (Hup H). lra.
    - assert (H : target_radius self <= current_radius self) by lra.
      specialize (Hdown H). lra. }
  split; [unfold target_ok; rewrite Htg, He, Hmin, Hmax; exact Ht|].
  split; [unfold drag_ok in *; rewrite Hdr, Hof; exact Hd|].
  split; [unfold gesture_ok in *; rewrite Hh, Hs; exact Hg|].
  rewrite Hsp. exact Hv.
Qed.

Lemma init_shell_ok (size : Z) (w : World) :
  (0 <= size)%Z -> shell_ok (fst (CircularWindow_init size w)).
Proof.
  intros Hs. unfold shell_ok, radius_ok, target_ok, drag_ok, gesture_ok. cbn.
  assert (Hle : (size / 5 <= size / 2)%Z) by (apply Z.div_le_compat_l; lia).
  apply IZR_le in Hle.
  repeat split; try lra; try congruence.
Qed.

(** X2. From the state the constructor builds for a non-negative size, any
    interleaving of draws, polls and clock readings, on any batches and any
    system behaviour, ends in a state where the current radius lies between the
    minimum and the maximum, the target radius is the maximum when expanded
    and the minimum when collapsed, dragging implies a captured offset and
    the hold flag is set exactly when a start time is recorded. *)
Theorem reachable_shell_state_well_formed
  (size : Z) (ops : list ShellOp) (w0 w : World) :
  (0 <= size)%Z ->
  let self := fst (shell_run (fst (CircularWindow_init size w0)) ops w) in
  radius_ok self /\ target_ok self /\ drag_ok self /\ gesture_ok self.
Proof.
  intros Hs self.
  assert (Hrun : forall ops s w, shell_ok s -> shell_ok (fst (shell_run s ops w))).
  { clear. induction ops as [|[|evs|] rest IH]; intros s w H.
    - exact H.
    - cbn [shell_run]. unfold bind.
      destruct (draw_closing_animation (update_size s) w) as [p w'].
      apply IH. apply update_size_shell_ok. exact H.
    - cbn [shell_run]. unfold bind.
      pose proof (poll_shell_ok s evs w H) as Hp.
      destruct (process_parent_events s evs w) as [[b s'] w']. cbn [fst snd] in *.
      apply IH. exact Hp.
    - cbn [shell_run]. unfold bind.
      destruct (time_time w) as [t w']. apply IH. exact H. }
  destruct (Hrun ops _ w (init_shell_ok size w0 Hs)) as (Hr & Ht & Hd & Hg & _).
  split; [exact Hr | split; [exact Ht | split; [exact Hd | exact Hg]]].
Qed.

Lemma reachable_shell_state_well_formed_witness :
  let ops := [Clock; Draw; Poll [MOUSEBUTTONDOWN 1 (200, 200)%Z; KEYDOWN K_ESCAPE]; Draw] in
  radius_ok (fst (shell_run (fst (CircularWindow_init 400 sample_world)) ops
                    world_unfocused)).
Proof.
  intros ops.
  apply (reachable_shell_state_well_formed 400 ops sample_world world_unfocused).
  lia.
Defined.

(** ** Settling of the radius *)

(** After [n] calls the gap to the target is within the tolerance or has
    shrunk by the smoothing factor [n] times. *)
Lemma update_size_n_gap (self : CircularWindow) (n : nat) :
  0 < size_transition_speed self ->
  let q := exp (- size_transition_speed self * dt) in
  let gap k := Rabs (current_radius (update_size_n k self) - target_radius self) in
  gap n <= 0.1 \/ gap n = q ^ n * gap O.
Proof.
  intros Hs q gap. induction n as [|n IH].
  - right. cbn [pow]. lra.
  - destruct (update_size_n_fields n self) as (Ht & _ & _ & Hv).
    assert (Hq : 0 < q) by apply exp_pos.
    unfold gap in *.
    change (update_size_n (S n) self) with (update_size (update_size_n n self)).
    change (update_size_n 0 self) with self in *.
    destruct (Rle_dec (Rabs (current_radius (update_size_n n self) -
                             target_radius self)) 0.1) as [Hle | Hgt].
    + left. rewrite update_size_settled; [exact Hle|].
      rewrite Ht. exact Hle.
    + destruct IH as [IH | IH]; [lra|]. right.
      assert (Hbig : Rabs (current_radius (update_size_n n self) -
                           target_radius (update_size_n n self)) > 0.1)
        by (rewrite Ht; lra).
      pose proof (update_size_gap _ Hbig) as Hg. rewrite Ht, Hv in Hg.
      fold q in Hg. rewrite Hg, Rabs_mult, (Rabs_pos_eq q) by lra.
      rewrite IH. cbn [pow]. ring.
Qed.

(** X3. With a positive transition speed, repeated calls of [update_size]
    bring the current radius within 0.1 of the target after finitely many
    calls, and from then on a call changes nothing: the radius settles. *)
Theorem update_size_settles (self : CircularWindow) :
  0 < size_transition_speed self ->
  exists N, forall n, (N <= n)%nat ->
    Rabs (current_radius (update_size_n n self) - target_radius self) <= 0.1 /\
    update_size (update_size_n n self) = update_size_n n self.
Proof.
  intros Hs.
  set (q := exp (- size_transition_speed self * dt)).
  set (d := Rabs (current_radius self - target_radius self)).
  assert (Hd : 0 <= d) by apply Rabs_pos.
  assert (Hq : 0 < q < 1).
  { pose proof (smoothing_factor_unit _ Hs). fold q in H. lra. }
  assert (Hy : 0 < 0.1 / (d + 1)) by (apply Rdiv_lt_0_compat; lra).
  destruct (pow_lt_1_zero q) with (y := 0.1 / (d + 1)) as [N HN];
    [rewrite Rabs_pos_eq; lra | exact Hy |].
  exists N. intros n Hn.
  assert (Hgap : Rabs (current_radius (update_size_n n self) - target_radius self) <= 0.1).
  { destruct (update_size_n_gap self n Hs) as [H | H]; [exact H|].
    change (update_size_n 0 self) with self in H. fold q d in H. rewrite H.
    assert (Hp : q ^ n < 0.1 / (d + 1)).
    { specialize (HN n Hn). rewrite Rabs_pos_eq in HN; [exact HN|].
      apply pow_le. lra. }
    assert (Hmul : 0.1 / (d + 1) * (d + 1) = 0.1) by (field; lra).
    assert (H0 : 0 <= q ^ n) by (apply pow_le; lra).
    nra. }
  split; [exact Hgap|].
  apply update_size_settled.
  destruct (update_size_n_fields n self) as (Ht & _). rewrite Ht. exact Hgap.
Qed.

Lemma update_size_settles_witness :
  exists N, forall n, (N <= n)%nat ->
    Rabs (current_radius (update_size_n n (set_expanded false 80 sample_window)) - 80)
      <= 0.1 /\
    update_size (update_size_n n (set_expanded false 80 sample_window)) =
      update_size_n n (set_expanded false 80 sample_window).
Proof.
  apply (update_size_settles (set_expanded false 80 sample_window)).
  cbn. lra.
Defined.

(** ** What a poll does to the windows of the system *)

Lemma poll_respects_on (Pev : Event -> Prop)
  (Rel : CircularWindow * World -> CircularWindow * World -> Prop) :
  (forall a, Rel a a) ->
  (forall a b c, Rel a b -> Rel b c -> Rel a c) ->
  (forall self w, Rel (self, w) (update_focus self w)) ->
  (forall self ev w, Pev ev ->
      Rel (self, w) (snd (fst (process_event self ev w)), snd (process_event self ev w))) ->
  (forall self w, Rel (self, w) (self, snd (hold_check self w))) ->
  forall self evs w,
    (forall ev, In ev evs -> Pev ev) ->
    Rel (self, w) (snd (fst (process_parent_events self evs w)),
                   snd (process_parent_events self evs w)).
Proof.
  intros Hrefl Htrans Hfocus Hevent Hcheck self evs w Hall.
  assert (Hloop : forall evs self w, (forall ev, In ev evs -> Pev ev) ->
             Rel (self, w) (snd (fst (event_loop self evs w)), snd (event_loop self evs w))).
  { clear self evs w Hall. induction evs as [|ev rest IH]; intros self w Hall.
    - cbn. apply Hrefl.
    - rewrite event_loop_cons. cbv zeta.
      assert (Hev : Pev ev) by (apply Hall; left; reflexivity).
      destruct (is_quit ev); cbn [fst snd]; [apply Hevent; exact Hev|].
      eapply Htrans; [apply Hevent; exact Hev|apply IH].
      intros ev' Hin. apply Hall. right. exact Hin. }
  rewrite process_parent_events_eq. cbv zeta.
  eapply Htrans; [apply Hfocus|].
  destruct (update_focus self w) as [s1 w1]. cbn [fst snd].
  eapply Htrans; [apply Hloop; exact Hall|].
  destruct (existsb is_quit evs); cbn [fst snd]; [apply Hrefl|].
  destruct (hold_check_state (snd (fst (event_loop s1 evs w1))) (snd (event_loop s1 evs w1)))
    as [Hs _].
  rewrite Hs. apply Hcheck.
Qed.

Lemma update_focus_world (self : CircularWindow) (w : World) :
  hwnd (fst (update_focus self w)) = hwnd self /\
  windows (snd (update_focus self w)) = windows w /\
  screen (snd (update_focus self w)) = screen w.
Proof.
  unfold update_focus. run_os. cbn [has_focus set_has_focus expanded].
  destruct (negb _ && expanded self); cbn; repeat split; reflexivity.
Qed.

Lemma same_geometry_refl (o : OSWindow) : same_geometry o o.
Proof. repeat split. Qed.

(** One event: no window is resized, restacked, shown or hidden, no window
    but the shell's own moves, and only a pointer move moves that one. *)
Lemma process_event_windows (self : CircularWindow) (ev : Event) (w : World) :
  let w' := snd (process_event self ev w) in
  (forall h, same_geometry (windows w' h) (windows w h)) /\
  (forall h, h <> hwnd self -> windows w' h = windows w h) /\
  (is_motion ev = false -> windows w' = windows w) /\
  screen w' = screen w.
Proof.
  destruct ev;
    try (unfold process_event, handle_window_click; run_os; split_ifs; cbn;
         repeat split; intros; reflexivity).
  cbn [is_motion]. unfold process_event, update_window_pos. run_os.
  destruct (dragging self); cbn [negb];
    [|cbn; repeat split; intros; try reflexivity; discriminate].
  destruct (drag_offset self) as [off|];
    [|cbn; repeat split; intros; try reflexivity; discriminate].
  cbn [fst snd windows screen]. split; [|split; [|split]].
  - intros h. destruct (h =? hwnd self)%Z; [|apply same_geometry_refl].
    rewrite place_nosize_nozorder. repeat split.
  - intros h Hh. apply Z.eqb_neq in Hh. rewrite Hh. reflexivity.
  - discriminate.
  - reflexivity.
Qed.

(** X4. A poll never resizes, restacks, shows or hides any window and never
    moves a window other than the shell's own; the screen metrics are left
    alone; and a batch without pointer-move events leaves every window
    exactly where it was. *)
Theorem poll_window_effects
  (self : CircularWindow) (evs : list Event) (w : World) :
  let w' := snd (process_parent_events self evs w) in
  (forall h, same_geometry (windows w' h) (windows w h)) /\
  (forall h, h <> hwnd self -> windows w' h = windows w h) /\
  screen w' = screen w /\
  ((forall ev, In ev evs -> is_motion ev = false) -> windows w' = windows w).
Proof.
  cbv zeta.
  pose (Rel := fun (a b : CircularWindow * World) =>
                 hwnd (fst b) = hwnd (fst a) /\
                 (forall h, same_geometry (windows (snd b) h) (windows (snd a) h)) /\
                 (forall h, h <> hwnd (fst a) -> windows (snd b) h = windows (snd a) h) /\
                 screen (snd b) = screen (snd a)).
  assert (Hrefl : forall a, Rel a a).
  { intros a. unfold Rel. repeat split. }
  assert (Htrans : forall a b c, Rel a b -> Rel b c -> Rel a c).
  { intros a b c (H1 & G1 & O1 & S1) (H2 & G2 & O2 & S2). unfold Rel.
    split; [congruence|]. split; [|split; [|congruence]].
    - intros h. destruct (G1 h) as (?&?&?&?). destruct (G2 h) as (?&?&?&?).
      repeat split; congruence.
    - intros h Hh. rewrite O2, O1; [reflexivity|exact Hh|rewrite H1; exact Hh]. }
  assert (Hfocus : forall s w0, Rel (s, w0) (update_focus s w0)).
  { intros s w0. destruct (update_focus_world s w0) as (Hh & Hw & Hs).
    unfold Rel. cbn [fst snd]. rewrite Hh, Hw, Hs.
    repeat split; intros; reflexivity. }
  assert (Hcheck : forall s w0, Rel (s, w0) (s, snd (hold_check s w0))).
  { intros s w0. destruct (hold_check_world s w0) as (_ & _ & _ & _ & _ & Hs & Hw).
    unfold Rel. cbn [fst snd]. rewrite Hs, Hw. repeat split; intros; reflexivity. }
  split; [|split; [|split]].
  - apply (poll_respects Rel Hrefl Htrans Hfocus); [|exact Hcheck].
    intros s ev w0. unfold Rel. cbn [fst snd].
    destruct (process_event_shape s ev w0) as ((_ & Hh & _) & _).
    destruct (process_event_windows s ev w0) as (G & O & _ & S). auto.
  - apply (poll_respects Rel Hrefl Htrans Hfocus); [|exact Hcheck].
    intros s ev w0. unfold Rel. cbn [fst snd].
    destruct (process_event_shape s ev w0) as ((_ & Hh & _) & _).
    destruct (process_event_windows s ev w0) as (G & O & _ & S). auto.
  - apply (poll_respects Rel Hrefl Htrans Hfocus); [|exact Hcheck].
    intros s ev w0. unfold Rel. cbn [fst snd].
    destruct (process_event_shape s ev w0) as ((_ & Hh & _) & _).
    destruct (process_event_windows s ev w0) as (G & O & _ & S). auto.
  - intros Hall.
    apply (poll_respects_on (fun ev => is_motion ev = false)
             (fun a b => windows (snd b) = windows (snd a))); cbn [fst snd];
      try congruence; auto.
    + intros s w0. apply update_focus_world.
    + intros s ev w0 Hev. apply (process_event_windows s ev w0). exact Hev.
    + intros s w0. apply hold_check_world.
Qed.

Lemma poll_window_effects_witness :
  let evs := [MOUSEBUTTONDOWN 1 (210, 200)%Z; KEYDOWN K_ESCAPE; MOUSEBUTTONUP 1 (210, 200)%Z] in
  windows (snd (process_parent_events sample_window evs sample_world))
    = windows sample_world.
Proof.
  intros evs.
  apply (poll_window_effects sample_window evs sample_world).
  intros ev [H | [H | [H | []]]]; subst ev; reflexivity.
Defined.

(** ** Presses the shell ignores, and the end of a drag *)

(** X5. A pointer press with a button other than the primary one, or a
    primary press farther from the centre than the current radius, changes
    neither the shell state nor the system: no expansion, no drag, no
    cursor or window query. *)
Theorem press_outside_or_secondary_ignored
  (self : CircularWindow) (button : Z) (pos : Z * Z) (w : World) :
  button <> 1%Z \/ current_radius self < dist pos (size self / 2, size self / 2)%Z ->
  process_event self (MOUSEBUTTONDOWN button pos) w = ((None, self), w).
Proof.
  intros H. unfold process_event.
  destruct (button =? 1)%Z eqn:Hb; [|reflexivity].
  apply Z.eqb_eq in Hb. destruct H as [H | H]; [contradiction|].
  pose proof (dist_nonneg pos (size self / 2, size self / 2)%Z) as Hd.
  unfold handle_window_click.
  destruct (negb (expanded self)); rdec; reflexivity.
Qed.

Lemma press_outside_or_secondary_ignored_witness :
  process_event collapsed_window (MOUSEBUTTONDOWN 1 (300, 200)%Z) sample_world
    = ((None, collapsed_window), sample_world) /\
  process_event sample_window (MOUSEBUTTONDOWN 3 (200, 200)%Z) sample_world
    = ((None, sample_window), sample_world).
Proof.
  split.
  - apply press_outside_or_secondary_ignored. right.
    assert (Hs : (size collapsed_window / 2)%Z = 200%Z) by reflexivity.
    assert (Hr : current_radius collapsed_window = 80) by reflexivity.
    rewrite Hs, Hr, dist_same_row.
    replace (300 - 200) with 100 by ring. rewrite Rabs_pos_eq by lra. lra.
  - apply press_outside_or_secondary_ignored. left. discriminate.
Defined.

Lemma motion_without_drag (self : CircularWindow) (pos : Z * Z) (w : World) :
  dragging self = false ->
  process_event self (MOUSEMOTION pos) w = ((None, self), w).
Proof. intros H. unfold process_event. rewrite H. reflexivity. Qed.

(** X6. Releasing the primary button ends a drag unconditionally: the drag
    flag is cleared and the offset dropped whatever they were, and the
    pointer moves that follow, however many, change neither the shell state
    nor the system, so the window stays where the drag left it. *)
Theorem release_ends_drag
  (self : CircularWindow) (pos : Z * Z) (moves : list (Z * Z)) (w : World) :
  let released := snd (fst (process_event self (MOUSEBUTTONUP 1 pos) w)) in
  process_event self (MOUSEBUTTONUP 1 pos) w = ((None, set_drag false None self), w) /\
  event_loop self (MOUSEBUTTONUP 1 pos :: map MOUSEMOTION moves) w =
    ((None, released), w) /\
  dragging released = false /\ drag_offset released = None.
Proof.
  cbv zeta.
  assert (E : process_event self (MOUSEBUTTONUP 1 pos) w =
              ((None, set_drag false None self), w)) by reflexivity.
  split; [exact E|]. rewrite E. cbn [fst snd].
  split; [|split; reflexivity].
  rewrite event_loop_cons. cbn [is_quit]. cbv zeta. rewrite E. cbn [fst snd].
  induction moves as [|m rest IH]; [reflexivity|].
  cbn [map]. rewrite event_loop_cons. cbn [is_quit]. cbv zeta.
  rewrite motion_without_drag by reflexivity. cbn [fst snd]. exact IH.
Qed.

(** ** The stop decision of a poll *)

(** X7. A poll answers stop exactly when the batch holds a quit request, or
    the window ends the batch in a hold and the clock reading taken by the
    final check is at least the hold duration past the recorded start.  In
    every other case it answers continue. *)
Theorem poll_stops_exactly_when
  (self : CircularWindow) (evs : list Event) (w : World) :
  let r := process_parent_events self evs w in
  let self' := snd (fst r) in
  fst (fst r) = false <->
  (In QUIT evs \/
   exists t0, escape_held self' = true /\ escape_start self' = Some t0 /\
              (0 < clock_reads (snd r))%nat /\
              clock w (pred (clock_reads (snd r))) - t0 >= escape_duration self).
Proof.
  cbv zeta. rewrite process_parent_events_eq. cbv zeta.
  destruct (update_focus_spec self w) as ((_ & _ & Hd1 & _) & _ & Hc1 & _).
  set (f := update_focus self w) in *.
  destruct (event_loop_shape evs (fst f) (snd f)) as ((_ & _ & Hd2 & _) & Hc2 & _).
  set (r := event_loop (fst f) evs (snd f)) in *.
  assert (Hclk : clock (snd r) = clock w) by congruence.
  assert (Hdur : escape_duration (snd (fst r)) = escape_duration self) by congruence.
  destruct (existsb is_quit evs) eqn:Hq.
  - cbn [fst snd]. split; [intros _; left; apply quit_in_batch; exact Hq|reflexivity].
  - assert (Hnq : ~ In QUIT evs).
    { intros Hin. assert (existsb is_quit evs = true); [|congruence].
      apply existsb_exists. exists QUIT. split; [exact Hin|reflexivity]. }
    unfold hold_check.
    destruct (escape_held (snd (fst r))) eqn:Hh.
    + destruct (escape_start (snd (fst r))) as [t0|] eqn:Hs.
      * run_os. rewrite Hclk, Hdur.
        destruct (Rge_dec _ _) as [Hge | Hlt]; cbn [fst snd clock_reads pred].
        -- split; [intros _|reflexivity]. right. exists t0.
           rewrite Hh, Hs. repeat split; [lia|exact Hge].
        -- split; [discriminate|]. intros [Hin | (t & _ & Ht & _ & Hge)];
             [contradiction|]. rewrite Hs in Ht. inversion Ht; subst t. contradiction.
      * cbn [ret fst snd]. unfold ret. cbn [fst snd].
        split; [discriminate|]. intros [Hin | (t & _ & Ht & _)]; [contradiction|].
        rewrite Hs in Ht. discriminate.
    + unfold ret. cbn [fst snd].
      split; [discriminate|]. intros [Hin | (t & Ht & _)]; [contradiction|].
      rewrite Hh in Ht. discriminate.
Qed.

(** ** Button clicks *)

Lemma press_button_keeps (self : TimerWindow) (name : string) (w : World) :
  let r := press_button self name w in
  buttons (fst r) = buttons self /\ windows (snd r) = windows w.
Proof.
  unfold press_button. run_os. split_ifs; cbn; split; reflexivity.
Qed.

Lemma click_first_result (items : list (string * Rect)) (self : TimerWindow)
  (pos : Z * Z) (w : World) :
  let r := click_first self items pos w in
  fst (fst r) = existsb (fun b => collidepoint (snd b) pos) items /\
  (fst (fst r) = false -> r = ((false, self), w)) /\
  buttons (snd (fst r)) = buttons self /\ windows (snd r) = windows w.
Proof.
  induction items as [|[name rect] rest IH]; cbn [click_first existsb snd].
  - cbn. repeat split; reflexivity.
  - destruct (collidepoint rect pos); cbn [orb]; [|exact IH].
    unfold bind. destruct (press_button_keeps self name w) as (Hb & Hw).
    destruct (press_button self name w) as [s w']. cbn [fst snd] in *.
    repeat split; auto. discriminate.
Qed.

(** X8. [handle_button_click] reports a click as handled exactly when the
    window is expanded and the position lies inside some button rectangle;
    a click it does not handle changes neither the timer nor the system;
    and in no case does it touch the shell state, the button rectangles,
    the handled-click flag or any window. *)
Theorem handle_button_click_handles_exactly
  (self : TimerWindow) (pos : Z * Z) (w : World) :
  let r := handle_button_click self pos w in
  fst (fst r) =
    expanded (base self) && existsb (fun b => collidepoint (snd b) pos) (buttons self) /\
  (fst (fst r) = false -> r = ((false, self), w)) /\
  base (snd (fst r)) = base self /\
  buttons (snd (fst r)) = buttons self /\
  click_handled (snd (fst r)) = click_handled self /\
  windows (snd r) = windows w.
Proof.
  unfold handle_button_click.
  destruct (expanded (base self)); cbn [negb andb].
  - destruct (click_first_result (buttons self) self pos w) as (H1 & H2 & H3 & H4).
    destruct (click_first_spec (buttons self) self pos w) as (H5 & H6 & _).
    repeat split; assumption.
  - cbn. repeat split; reflexivity.
Qed.

Lemma handle_button_click_handles_exactly_witness :
  handle_button_click sample_timer (10, 10)%Z sample_world
    = ((false, sample_timer), sample_world).
Proof.
  apply (handle_button_click_handles_exactly sample_timer (10, 10)%Z sample_world).
  apply (handle_button_click_handles_exactly sample_timer (10, 10)%Z sample_world).
Defined.

Lemma timer_event_keeps (self : TimerWindow) (ev : Event) (w : World) :
  let r := timer_event self ev w in
  buttons (fst r) = buttons self /\ windows (snd r) = windows w.
Proof.
  destruct ev; try (cbn; split; reflexivity).
  - cbn [timer_event]. destruct (_ && _); cbn; split; reflexivity.
  - cbn [timer_event]. destruct (button =? 1)%Z.
    + unfold bind.
      destruct (handle_button_click_handles_exactly self pos w)
        as (_ & _ & _ & Hb & _ & Hw).
      destruct (handle_button_click self pos w) as [[handled s] w'].
      cbn [fst snd] in *. destruct handled; cbn; split; assumption.
    + destruct (_ && _); cbn; split; reflexivity.
Qed.

Lemma timer_events_keeps (evs : list Event) (self : TimerWindow) (w : World) :
  let r := timer_events self evs w in
  buttons (fst r) = buttons self /\ windows (snd r) = windows w.
Proof.
  revert self w. induction evs as [|ev rest IH]; intros self w; [cbn; split; reflexivity|].
  cbn [timer_events]. unfold bind.
  destruct (timer_event_keeps self ev w) as (Hb & Hw).
  destruct (timer_event self ev w) as [s w']. cbn [fst snd] in *.
  destruct (IH s w') as (Hb' & Hw'). split; congruence.
Qed.

(** A primary press on a button marks the batch as handled, wherever the
    press stands in the batch. *)
Lemma button_press_marks_handled (evs : list Event) (self : TimerWindow)
  (pos : Z * Z) (w : World) :
  expanded (base self) = true ->
  existsb (fun b => collidepoint (snd b) pos) (buttons self) = true ->
  In (MOUSEBUTTONDOWN 1 pos) evs ->
  click_handled (fst (timer_events self evs w)) = true.
Proof.
  revert self w. induction evs as [|ev rest IH]; intros self w He Hb Hin; [contradiction|].
  cbn [timer_events]. unfold bind.
  destruct (timer_event_spec self ev w) as (Hbase & _ & _ & _).
  destruct (timer_event_keeps self ev w) as (Hbuttons & _).
  destruct Hin as [Heq | Hin].
  - subst ev.
    assert (Hc : click_handled (fst (timer_event self (MOUSEBUTTONDOWN 1 pos) w)) = true).
    { cbn [timer_event Z.eqb Pos.eqb]. unfold bind.
      destruct (handle_button_click_handles_exactly self pos w) as (Hf & _).
      rewrite He, Hb in Hf.
      destruct (handle_button_click self pos w) as [[handled s] w'].
      cbn [fst snd andb] in *. subst handled. reflexivity. }
    destruct (timer_event self (MOUSEBUTTONDOWN 1 pos) w) as [s w']. cbn [fst snd] in *.
    apply (timer_events_spec rest s w'). exact Hc.
  - destruct (timer_event self ev w) as [s w']. cbn [fst snd] in *.
    apply IH; [congruence|congruence|exact Hin].
Qed.

(** X9. A frame whose batch holds a primary press on a button of the
    expanded window never starts a drag: the click is marked handled, the
    shell state after [handle_events] is exactly what it was before, and no
    window moves. *)
Theorem button_click_frame_leaves_shell_alone
  (self : TimerWindow) (evs : list Event) (pos : Z * Z) (w : World) :
  expanded (base self) = true ->
  existsb (fun b => collidepoint (snd b) pos) (buttons self) = true ->
  In (MOUSEBUTTONDOWN 1 pos) evs ->
  let r := handle_events self evs w in
  click_handled (snd (fst r)) = true /\
  base (snd (fst r)) = base self /\ windows (snd r) = windows w.
Proof.
  intros He Hb Hin r. subst r. rewrite handle_events_eq. cbv zeta.
  pose proof (button_press_marks_handled evs (set_click_handled false self) pos w
                He Hb Hin) as Hc.
  rewrite Hc. cbn [fst snd].
  destruct (timer_events_spec evs (set_click_handled false self) w) as (Hbase & _).
  destruct (timer_events_keeps evs (set_click_handled false self) w) as (_ & Hw).
  repeat split; assumption.
Qed.

Lemma button_click_frame_leaves_shell_alone_witness :
  let evs := [MOUSEMOTION (1, 1)%Z; MOUSEBUTTONDOWN 1 (200, 290)%Z] in
  base (snd (fst (handle_events sample_timer evs sample_world))) = base sample_timer.
Proof.
  intros evs.
  apply (button_click_frame_leaves_shell_alone sample_timer evs (200, 290)%Z sample_world).
  - reflexivity.
  - reflexivity.
  - right. left. reflexivity.
Defined.


(** ** The countdown under events *)

Lemma press_button_move (self : TimerWindow) (name : string) (w : World) :
  timer_move self (fst (press_button self name w)).
Proof.
  unfold press_button, timer_move. run_os.
  destruct (String.eqb name "start"); [right; left; cbn; auto|].
  destruct (String.eqb name "reset"); [right; right; left; cbn; auto|].
  destruct (String.eqb name "up" && negb (running self)) eqn:Hup.
  { apply andb_true_iff in Hup. destruct Hup as [_ Hr]. apply negb_true_iff in Hr.
    right; right; right. cbn.
    split; [exact Hr|]. split; [exact Hr|]. split; [reflexivity|]. left. reflexivity. }
  destruct (String.eqb name "down" && negb (running self)) eqn:Hdown.
  { apply andb_true_iff in Hdown. destruct Hdown as [_ Hr]. apply negb_true_iff in Hr.
    right; right; right. cbn.
    split; [exact Hr|]. split; [exact Hr|]. split; [reflexivity|].
    right. left. reflexivity. }
  left. cbn. auto.
Qed.

Lemma click_first_move (items : list (string * Rect)) (self : TimerWindow)
  (pos : Z * Z) (w : World) :
  timer_move self (snd (fst (click_first self items pos w))).
Proof.
  induction items as [|[name rect] rest IH]; cbn [click_first].
  - left. cbn. auto.
  - destruct (collidepoint rect pos); [|exact IH].
    unfold bind. pose proof (press_button_move self name w) as H.
    destruct (press_button self name w) as [s w']. exact H.
Qed.

Lemma timer_event_move (self : TimerWindow) (ev : Event) (w : World) :
  timer_move self (fst (timer_event self ev w)).
Proof.
  destruct ev; try (left; cbn; auto; fail).
  - cbn [timer_event]. destruct (_ && negb (running self)) eqn:Hk.
    + apply andb_true_iff in Hk. destruct Hk as [_ Hr]. apply negb_true_iff in Hr.
      right; right; left. cbn. auto.
    + left. cbn. auto.
  - cbn [timer_event]. destruct (button =? 1)%Z.
    + unfold handle_button_click.
      destruct (negb (expanded (base self))); [left; cbn; auto|].
      unfold bind. pose proof (click_first_move (buttons self) self pos w) as H.
      destruct (click_first self (buttons self) pos w) as [[handled s] w'].
      cbn [fst snd] in *. destruct handled; exact H.
    + destruct (((button =? 4)%Z || (button =? 5)%Z) && negb (running self)
                && expanded (base self)) eqn:Hc; [|left; cbn; auto].
      apply andb_true_iff in Hc. destruct Hc as [Hc _].
      apply andb_true_iff in Hc. destruct Hc as [_ Hr]. apply negb_true_iff in Hr.
      right; right; right. cbn [fst ret seconds running finished set_timer].
      split; [exact Hr|]. split; [exact Hr|]. split; [reflexivity|].
      destruct (button =? 4)%Z; [right; right; left|right; right; right];
        f_equal; f_equal; lia.
Qed.

(** A property of (seconds, running, finished) that every move keeps is
    kept by a whole frame of [handle_events]. *)
Lemma handle_events_keeps (Pt : Z -> bool -> bool -> Prop) :
  (forall a b, timer_move a b ->
     Pt (seconds a) (running a) (finished a) -> Pt (seconds b) (running b) (finished b)) ->
  forall self evs w,
    Pt (seconds self) (running self) (finished self) ->
    let self' := snd (fst (handle_events self evs w)) in
    Pt (seconds self') (running self') (finished self').
Proof.
  intros Hmove self evs w H.
  assert (Hloop : forall evs s w0,
             Pt (seconds s) (running s) (finished s) ->
             Pt (seconds (fst (timer_events s evs w0)))
                (running (fst (timer_events s evs w0)))
                (finished (fst (timer_events s evs w0)))).
  { clear self evs w H. induction evs as [|ev rest IH]; intros s w0 H; [exact H|].
    cbn [timer_events]. unfold bind.
    pose proof (Hmove _ _ (timer_event_move s ev w0) H) as H'.
    destruct (timer_event s ev w0) as [s' w']. cbn [fst] in H'. apply IH. exact H'. }
  cbv zeta. rewrite handle_events_eq. cbv zeta.
  specialize (Hloop evs (set_click_handled false self) w H).
  destruct (click_handled _); cbn [fst snd]; exact Hloop.
Qed.

(** X10. A frame of [handle_events] keeps the countdown within its limits:
    if the seconds are between 0 and 5400 before, they are after, and if
    they are between 60 and 5400 before, they are after; no button, wheel
    or key takes the timer above 90 minutes or, from at least one minute,
    below one minute. *)
Theorem handle_events_keeps_seconds_in_range
  (self : TimerWindow) (evs : list Event) (w : World) :
  let self' := snd (fst (handle_events self evs w)) in
  ((0 <= seconds self <= 5400)%Z -> (0 <= seconds self' <= 5400)%Z) /\
  ((60 <= seconds self <= 5400)%Z -> (60 <= seconds self' <= 5400)%Z).
Proof.
  cbv zeta. split.
  - apply (handle_events_keeps (fun s _ _ => (0 <= s <= 5400)%Z)).
    intros a b [(Hs & _) | [(Hs & _) | [(Hs & _) | (_ & _ & _ & Hs)]]] H; lia.
  - apply (handle_events_keeps (fun s _ _ => (60 <= s <= 5400)%Z)).
    intros a b [(Hs & _) | [(Hs & _) | [(Hs & _) | (_ & _ & _ & Hs)]]] H; lia.
Qed.

Lemma handle_events_keeps_seconds_in_range_witness :
  let evs := [MOUSEBUTTONDOWN 4 (0, 0)%Z; MOUSEBUTTONDOWN 1 (310, 200)%Z; KEYDOWN K_RETURN] in
  (60 <= seconds (snd (fst (handle_events sample_timer evs sample_world))) <= 5400)%Z.
Proof.
  intros evs.
  apply (handle_events_keeps_seconds_in_range sample_timer evs sample_world).
  cbn. lia.
Defined.

(** X11. While the timer is running, a frame without a primary press
    leaves the countdown alone: the wheel and the Enter key do nothing, so
    seconds, running, finished and the last update time are unchanged. *)
Theorem running_timer_ignores_wheel_and_enter
  (self : TimerWindow) (evs : list Event) (w : World) :
  running self = true ->
  (forall ev, In ev evs -> is_primary_press ev = false) ->
  let self' := snd (fst (handle_events self evs w)) in
  seconds self' = seconds self /\ running self' = true /\
  finished self' = finished self /\ last_update self' = last_update self.
Proof.
  intros Hr Hno.
  assert (Hstep : forall s ev w0, running s = true -> is_primary_press ev = false ->
                                  timer_event s ev w0 = (s, w0)).
  { intros s ev w0 Hrs Hev. destruct ev; try reflexivity.
    - cbn [timer_event]. rewrite Hrs. cbn [negb]. rewrite andb_false_r. reflexivity.
    - cbn [is_primary_press] in Hev. cbn [timer_event]. rewrite Hev, Hrs.
      cbn [negb]. rewrite andb_false_r. reflexivity. }
  assert (Hloop : forall evs s w0, running s = true ->
                    (forall ev, In ev evs -> is_primary_press ev = false) ->
                    timer_events s evs w0 = (s, w0)).
  { clear evs Hno. induction evs as [|ev rest IH]; intros s w0 Hrs Hall; [reflexivity|].
    cbn [timer_events]. unfold bind.
    rewrite Hstep by (auto; apply Hall; left; reflexivity).
    apply IH; [exact Hrs|]. intros ev' Hin. apply Hall. right. exact Hin. }
  cbv zeta. rewrite handle_events_eq. cbv zeta.
  rewrite (Hloop evs (set_click_handled false self) w Hr Hno).
  cbn [fst snd click_handled set_click_handled seconds running finished
       last_update set_base].
  rewrite Hr. repeat split; reflexivity.
Qed.

Lemma running_timer_ignores_wheel_and_enter_witness :
  let tw := set_timer 120 true 0 false sample_timer in
  let evs := [MOUSEBUTTONDOWN 4 (0, 0)%Z; KEYDOWN K_RETURN; MOUSEBUTTONDOWN 5 (0, 0)%Z] in
  seconds (snd (fst (handle_events tw evs sample_world))) = 120%Z.
Proof.
  intros tw evs.
  apply (running_timer_ignores_wheel_and_enter tw evs sample_world).
  - reflexivity.
  - intros ev [H | [H | [H | []]]]; subst ev; reflexivity.
Defined.

(** ** The countdown under the clock *)

Lemma int_of_float_whole_seconds (x : R) :
  x >= 1 -> (1 <= int_of_float x)%Z /\ IZR (int_of_float x) <= x < IZR (int_of_float x) + 1.
Proof.
  intros Hx. unfold int_of_float. destruct (Rle_dec 0 x); [|lra].
  destruct (base_Int_part x) as [Hlo Hhi].
  split; [|lra].
  assert (H : (0 < Int_part x)%Z) by (apply lt_IZR; lra). lia.
Qed.

(** X12. [update_timer] counts down no faster than the clock.  A stopped
    timer is left alone and the clock is not read; a running timer whose
    last update is less than a second old is left alone too.  Otherwise,
    from non-negative seconds, the whole seconds elapsed are removed (at
    least one, never more than the time elapsed), the seconds stay
    non-negative, the last update becomes the clock reading, and the
    taskbar flash is requested exactly when the seconds reach 0, in which
    case the timer stops and is marked finished. *)
Theorem update_timer_counts_down (self : TimerWindow) (w : World) :
  let now := clock w (clock_reads w) in
  let elapsed := now - last_update self in
  let r := update_timer self w in
  let self' := snd (fst r) in
  (running self = false -> r = ((false, self), w)) /\
  (running self = true -> elapsed < 1 -> fst r = (false, self)) /\
  (running self = true -> elapsed >= 1 -> (0 <= seconds self)%Z ->
     (0 <= seconds self' <= seconds self)%Z /\
     (0 < seconds self -> seconds self' < seconds self)%Z /\
     IZR (seconds self - seconds self') <= elapsed /\
     last_update self' = now /\
     (fst (fst r) = true <-> seconds self' = 0%Z) /\
     (seconds self' = 0%Z -> running self' = false /\ finished self' = true) /\
     (seconds self' <> 0%Z -> running self' = true /\ finished self' = finished self)).
Proof.
  cbv zeta. unfold update_timer. split; [|split].
  - intros Hr. rewrite Hr. reflexivity.
  - intros Hr He. rewrite Hr. run_os. destruct (Rge_dec _ _); [lra|reflexivity].
  - intros Hr He Hs. rewrite Hr. run_os. destruct (Rge_dec _ _) as [_|Hn]; [|lra].
    destruct (int_of_float_whole_seconds _ He) as (Hk & Hlo & Hhi).
    set (k := int_of_float (clock w (clock_reads w) - last_update self)) in *.
    destruct (Z.max 0 (seconds self - k) =? 0)%Z eqn:Hz;
      cbn [fst snd seconds last_update running finished set_timer].
    + apply Z.eqb_eq in Hz.
      split; [lia|]. split; [lia|]. split.
      { rewrite Hz, Z.sub_0_r. apply Rle_trans with (IZR k); [apply IZR_le; lia|exact Hlo]. }
      split; [reflexivity|]. split; [tauto|]. split; [auto|]. intros H. contradiction.
    + apply Z.eqb_neq in Hz.
      split; [lia|]. split; [lia|]. split.
      { apply Rle_trans with (IZR k); [apply IZR_le; lia|exact Hlo]. }
      split; [reflexivity|]. split; [split; [discriminate|contradiction]|].
      split; [contradiction|]. intros _. split; reflexivity.
Qed.

Lemma update_timer_counts_down_witness :
  let tw := set_timer 90 true 0.5 false sample_timer in
  let tw' := snd (fst (update_timer tw (world_at 4))) in
  (0 <= seconds tw' <= 90)%Z /\ last_update tw' = 4 + INR 0.
Proof.
  intros tw tw'.
  assert (He : clock (world_at 4) (clock_reads (world_at 4)) - last_update tw >= 1).
  { cbn. lra. }
  destruct (update_timer_counts_down tw (world_at 4)) as (_ & _ & H).
  destruct (H eq_refl He) as (Hb & _ & _ & Hu & _); [cbn; lia|].
  split; [exact Hb|exact Hu].
Defined.

(** X13. A finished timer is never running: if that holds before a frame
    of [handle_events] or a call of [update_timer] it holds after, and it
    holds of the timer the constructor builds. *)
Theorem finished_timer_is_stopped
  (self : TimerWindow) (evs : list Event) (w : World)
  (size minutes : Z) (autostart : bool) (bg : Z * Z * Z) :
  (finished self = true -> running self = false) ->
  (let a := snd (fst (handle_events self evs w)) in
   finished a = true -> running a = false) /\
  (let b := snd (fst (update_timer self w)) in
   finished b = true -> running b = false) /\
  (let c := fst (TimerWindow_init size minutes autostart bg w) in
   finished c = true -> running c = false).
Proof.
  intros H. split; [|split].
  - apply (handle_events_keeps (fun _ r f => f = true -> r = false)); [|exact H].
    intros a b [(_ & Hr & Hf) | [(_ & _ & Hf) | [(_ & Hr & _) | (_ & Hr & _)]]] Ha Hb;
      try congruence.
    rewrite Hr. apply Ha. congruence.
  - cbv zeta. unfold update_timer. run_os.
    destruct (running self) eqn:Hr; [|cbn; rewrite Hr; exact H].
    destruct (Rge_dec _ _); [|cbn; rewrite Hr; exact H].
    destruct (_ =? 0)%Z; cbn; [reflexivity|]. exact H.
  - cbn. discriminate.
Qed.

Lemma finished_timer_is_stopped_witness :
  let a := snd (fst (handle_events sample_timer [MOUSEBUTTONDOWN 1 (200, 290)%Z]
                       sample_world)) in
  negb (finished a) || negb (running a) = true.
Proof.
  intros a.
  assert (H0 : finished sample_timer = true -> running sample_timer = false).
  { cbn. discriminate. }
  pose proof (proj1 (finished_timer_is_stopped sample_timer
                       [MOUSEBUTTONDOWN 1 (200, 290)%Z] sample_world
                       400 5 false (0, 120, 255)%Z H0)) as H.
  cbv zeta in H. fold a in H.
  destruct (finished a); [|reflexivity].
  rewrite (H eq_refl). reflexivity.
Defined.

(** ** The displayed time *)

Lemma format_time_table :
  forallb (fun n =>
             let s := Z.of_nat n in
             String.eqb (format_02d (s / 60) ++ ":" ++ format_02d (s mod 60))%string
                        (clock_text s)
             && match text_seconds (clock_text s) with
                | Some v => (v =? s)%Z
                | None => false
                end)
          (seq 0 (Z.to_nat 6000)) = true.
Proof. vm_compute. reflexivity. Qed.

(** X14. For seconds from 0 up to 99 minutes 59 seconds (the timer never
    holds more than 5400), [format_time] gives exactly five characters,
    two digits of minutes, a colon and two digits of seconds below 60, and
    the text determines the seconds: reading it back gives the same number,
    so two different counts never display alike. *)
Theorem format_time_is_mm_ss (self other : TimerWindow) :
  (0 <= seconds self < 6000)%Z ->
  format_time self = clock_text (seconds self) /\
  String.length (format_time self) = 5%nat /\
  text_seconds (format_time self) = Some (seconds self) /\
  ((0 <= seconds other < 6000)%Z -> format_time other = format_time self ->
   seconds other = seconds self).
Proof.
  assert (Hrow : forall s, (0 <= s < 6000)%Z ->
             (format_02d (s / 60) ++ ":" ++ format_02d (s mod 60))%string = clock_text s /\
             text_seconds (clock_text s) = Some s).
  { intros s Hs.
    pose proof format_time_table as Ht. rewrite forallb_forall in Ht.
    specialize (Ht (Z.to_nat s)).
    rewrite Z2Nat.id in Ht by lia. cbv zeta in Ht.
    assert (Hin : In (Z.to_nat s) (seq 0 (Z.to_nat 6000))) by (apply in_seq; lia).
    apply Ht in Hin. apply andb_true_iff in Hin. destruct Hin as [He Hd].
    apply String.eqb_eq in He. split; [exact He|].
    destruct (text_seconds (clock_text s)) as [v|]; [|discriminate].
    apply Z.eqb_eq in Hd. congruence. }
  intros Hs. destruct (Hrow _ Hs) as [Hf Hd].
  assert (E : format_time self = clock_text (seconds self)) by exact Hf.
  split; [exact E|]. rewrite E. split; [reflexivity|]. split; [exact Hd|].
  intros Ho Heq. destruct (Hrow _ Ho) as [Hf' Hd'].
  assert (E' : format_time other = clock_text (seconds other)) by exact Hf'.
  rewrite E' in Heq. rewrite Heq in Hd'. congruence.
Qed.

Lemma format_time_is_mm_ss_witness :
  format_time sample_timer = "05:00"%string /\
  text_seconds (format_time sample_timer) = Some 300%Z.
Proof.
  assert (Hs : (0 <= seconds sample_timer < 6000)%Z) by (cbn; lia).
  destruct (format_time_is_mm_ss sample_timer sample_timer Hs) as (Ht & _ & Hd & _).
  split; [exact Ht|exact Hd].
Defined.

(** ** The window the constructor sets up *)

(** X15. For a non-negative size (a negative one makes
    [pygame.display.set_mode] raise before any of this runs), the
    constructor adopts the foreground window, makes it a topmost, shown
    square of the requested size, and centres it: the left and right
    margins on the screen differ by at most one pixel, as do the top and
    bottom ones; no other window is touched. *)
Theorem constructor_centres_window (size : Z) (w : World) :
  (0 <= size)%Z ->
  let r := CircularWindow_init size w in
  let h := foreground w (foreground_reads w) in
  let o := windows (snd r) h in
  hwnd (fst r) = h /\
  win_width o = size /\ win_height o = size /\
  win_insert_after o = HWND_TOPMOST /\ win_shown o = true /\
  (0 <= (fst (screen w) - (win_left o + size)) - win_left o <= 1)%Z /\
  (0 <= (snd (screen w) - (win_top o + size)) - win_top o <= 1)%Z /\
  (forall h', h' <> h -> windows (snd r) h' = windows w h').
Proof.
  intros _. cbv zeta. unfold CircularWindow_init. run_os.
  cbn [fst snd hwnd windows screen]. rewrite Z.eqb_refl.
  assert (Hp : forall o after x y cx cy,
             place o after x y cx cy SWP_SHOWWINDOW =
             {| win_left := x; win_top := y; win_width := cx; win_height := cy;
                win_insert_after := after; win_shown := true |}) by reflexivity.
  rewrite Hp. cbn [win_left win_top win_width win_height win_insert_after win_shown].
  assert (Hhalf : forall d, (0 <= d - d / 2 - d / 2 <= 1)%Z).
  { intros d. pose proof (Z.div_mod d 2 ltac:(lia)) as Hd.
    pose proof (Z.mod_pos_bound d 2 ltac:(lia)) as Hm. lia. }
  repeat split; try reflexivity.
  - pose proof (Hhalf (fst (screen w) - size)%Z). lia.
  - pose proof (Hhalf (fst (screen w) - size)%Z). lia.
  - pose proof (Hhalf (snd (screen w) - size)%Z). lia.
  - pose proof (Hhalf (snd (screen w) - size)%Z). lia.
  - intros h' Hh. apply Z.eqb_neq in Hh. rewrite Hh. reflexivity.
Qed.

(** A 401 pixel window on a 1920 x 1080 screen: margins 759 and 760,
    339 and 340. *)
Lemma constructor_centres_window_witness :
  let o := windows (snd (CircularWindow_init 401 sample_world)) 7%Z in
  win_left o = 759%Z /\ win_top o = 339%Z /\
  win_width o = 401%Z /\ win_insert_after o = HWND_TOPMOST /\
  (0 <= (1920 - (win_left o + 401)) - win_left o <= 1)%Z.
Proof.
  intros o.
  destruct (constructor_centres_window 401 sample_world ltac:(lia))
    as (_ & Hw & _ & Ha & _ & Hm & _).
  split; [reflexivity|]. split; [reflexivity|].
  split; [exact Hw|]. split; [exact Ha|exact Hm].
Defined.

(** ** The closing arc *)

(** X16. During a hold with a positive duration, the progress fraction the
    closing arc is drawn with never exceeds 1, is non-negative from the
    recorded start on, never decreases as the clock advances, and is 1
    exactly from start + duration on; outside a hold nothing is drawn and
    the clock is not read. *)
Theorem closing_progress_is_clamped_and_monotone
  (self : CircularWindow) (w : World) (t0 now later : R) :
  0 < escape_duration self ->
  (escape_held self = false -> draw_closing_animation self w = (None, w)) /\
  (escape_held self = true -> escape_start self = Some t0 ->
   fst (draw_closing_animation self w) = closing_progress self (clock w (clock_reads w)) /\
   exists p q, closing_progress self now = Some p /\
               closing_progress self later = Some q /\
               p <= 1 /\ (t0 <= now -> 0 <= p) /\
               (now <= later -> p <= q) /\
               (p = 1 <-> t0 + escape_duration self <= now)).
Proof.
  intros Hd. split.
  - intros Hh. unfold draw_closing_animation. rewrite Hh. reflexivity.
  - intros Hh Hs. unfold draw_closing_animation, closing_progress.
    rewrite Hh, Hs. cbn [negb]. split; [reflexivity|].
    set (d := escape_duration self) in *.
    assert (Hfrac : forall t, (t - t0) / d * d = t - t0) by (intros t; field; lra).
    exists (Rmin 1 ((now - t0) / d)), (Rmin 1 ((later - t0) / d)).
    split; [reflexivity|]. split; [reflexivity|].
    pose proof (Hfrac now) as Hn. pose proof (Hfrac later) as Hl.
    set (x := (now - t0) / d) in *. set (y := (later - t0) / d) in *.
    split; [apply Rmin_l|]. split; [|split].
    + intros Hge. apply Rmin_glb; [lra|]. nra.
    + intros Hle. assert (Hxy : x <= y) by nra.
      apply Rmin_glb; [apply Rmin_l|].
      apply Rle_trans with x; [apply Rmin_r|exact Hxy].
    + split.
      * intros Hp. assert (Hx : 1 <= x).
        { unfold Rmin in Hp. destruct (Rle_dec 1 x); lra. }
        nra.
      * intros Hge. apply Rmin_left. nra.
Qed.

Lemma closing_progress_is_clamped_and_monotone_witness :
  let self := set_escape true (Some 1) sample_window in
  exists p q, closing_progress self 2 = Some p /\ closing_progress self 3 = Some q /\
              p <= q /\ q = 1.
Proof.
  intros self.
  assert (Hd : 0 < escape_duration self) by (cbn; lra).
  destruct (closing_progress_is_clamped_and_monotone self sample_world 1 2 3 Hd)
    as [_ H].
  destruct (H eq_refl eq_refl) as (_ & p & q & Hp & Hq & _ & _ & Hmono & _).
  destruct (closing_progress_is_clamped_and_monotone self sample_world 1 3 3 Hd)
    as [_ H'].
  destruct (H' eq_refl eq_refl) as (_ & q' & _ & Hq' & _ & _ & _ & _ & Hone).
  exists p, q. split; [exact Hp|]. split; [exact Hq|]. split; [apply Hmono; lra|].
  assert (Some q = Some q') by congruence. inversion H0; subst q'.
  apply Hone. cbn. lra.
Defined.

(** ** Frames of the timer window *)

(** X17. [TimerWindow.handle_events] never stops without cause: when it
    answers stop, the batch holds a quit request or the window is in a hold
    whose recorded start lies at least the hold duration before the clock
    reading of the final check. *)
Theorem timer_frame_stops_only_with_cause
  (self : TimerWindow) (evs : list Event) (w : World) :
  let r := handle_events self evs w in
  fst (fst r) = false ->
  In QUIT evs \/
  exists t0, escape_held (base (snd (fst r))) = true /\
             escape_start (base (snd (fst r))) = Some t0 /\
             (0 < clock_reads (snd r))%nat /\
             clock w (pred (clock_reads (snd r))) - t0 >= escape_duration (base self).
Proof.
  cbv zeta. rewrite handle_events_eq. cbv zeta.
  destruct (click_handled _); cbn [fst snd base set_base]; [discriminate|].
  intros H. apply (poll_stops_exactly_when (base self) evs w). exact H.
Qed.

Lemma timer_frame_stops_only_with_cause_witness :
  let evs := [KEYDOWN K_RETURN; QUIT] in
  let r := handle_events sample_timer evs sample_world in
  In QUIT evs \/
  exists t0, escape_held (base (snd (fst r))) = true /\
             escape_start (base (snd (fst r))) = Some t0 /\
             (0 < clock_reads (snd r))%nat /\
             clock sample_world (pred (clock_reads (snd r))) - t0
               >= escape_duration (base sample_timer).
Proof.
  intros evs r.
  apply (timer_frame_stops_only_with_cause sample_timer evs sample_world).
  reflexivity.
Defined.

(** X18. A collapsed window is read-only for the mouse: in a frame without
    a key-down of Enter, no press, wheel step or other event changes the
    seconds, the running flag, the finished flag or the last update
    time. *)
Theorem collapsed_timer_ignores_mouse
  (self : TimerWindow) (evs : list Event) (w : World) :
  expanded (base self) = false ->
  ~ In (KEYDOWN K_RETURN) evs ->
  let self' := snd (fst (handle_events self evs w)) in
  seconds self' = seconds self /\ running self' = running self /\
  finished self' = finished self /\ last_update self' = last_update self /\
  click_handled self' = false.
Proof.
  intros He Hno.
  assert (Hstep : forall s ev w0, expanded (base s) = false -> ev <> KEYDOWN K_RETURN ->
                                  timer_event s ev w0 = (s, w0)).
  { intros s ev w0 Hes Hev. destruct ev; try reflexivity.
    - cbn [timer_event]. destruct (key =? K_RETURN)%Z eqn:Hk; [|reflexivity].
      apply Z.eqb_eq in Hk. subst key. contradiction.
    - cbn [timer_event]. unfold handle_button_click. rewrite Hes. cbn [negb].
      rewrite andb_false_r. destruct (button =? 1)%Z; reflexivity. }
  assert (Hloop : forall evs s w0, expanded (base s) = false ->
                    ~ In (KEYDOWN K_RETURN) evs -> timer_events s evs w0 = (s, w0)).
  { clear evs Hno. induction evs as [|ev rest IH]; intros s w0 Hes Hall; [reflexivity|].
    cbn [timer_events]. unfold bind.
    rewrite Hstep; [|exact Hes|intros E; apply Hall; left; exact E].
    apply IH; [exact Hes|]. intros Hin. apply Hall. right. exact Hin. }
  cbv zeta. rewrite handle_events_eq. cbv zeta.
  rewrite (Hloop evs (set_click_handled false self) w He Hno).
  cbn [fst snd click_handled set_click_handled seconds running finished
       last_update set_base].
  repeat split; reflexivity.
Qed.

Lemma collapsed_timer_ignores_mouse_witness :
  let tw := set_base collapsed_window sample_timer in
  let evs := [MOUSEBUTTONDOWN 4 (0, 0)%Z; MOUSEBUTTONDOWN 1 (300, 200)%Z] in
  seconds (snd (fst (handle_events tw evs sample_world))) = 300%Z.
Proof.
  intros tw evs.
  apply (collapsed_timer_ignores_mouse tw evs sample_world).
  - reflexivity.
  - intros [H | [H | []]]; discriminate.
Defined.


Example format_02d_examples :
  format_02d 7 = "07"%string /\ format_02d 0 = "00"%string /\
  format_02d 123 = "123"%string /\ format_02d (-5) = "-5"%string.
Proof. repeat split; reflexivity. Qed.
